(** * Responses API translation layer of copilot-proxy-api

    A shallow embedding of
    - [src/routes/responses/types.ts]        (module [Types]),
    - [src/routes/responses/translation.ts]  (module [Translation]),
    - [src/routes/responses/handler.ts]      (module [Handler]),
    followed by the properties of the request normalizer, the response
    projector and the streaming event sequencer. *)

From Stdlib Require Import String Ascii List ZArith Bool Lia Floats DecimalString.
Import ListNotations.
Local Open Scope string_scope.
Local Open Scope Z_scope.

(** * JavaScript primitives the code relies on *)

Module Js.

(** [Boolean(s)] for a string: only the empty string is falsy. *)
Definition truthy (s : string) : bool :=
  match s with
  | EmptyString => false
  | String _ _ => true
  end.

(** [Boolean(v)] for an optional string ([undefined] is falsy). *)
Definition truthy_opt (v : option string) : bool :=
  match v with
  | Some s => truthy s
  | None => false
  end.

(** A value interpolated in a template literal: [`${v}`]. *)
Definition template (v : option string) : string :=
  match v with
  | Some s => s
  | None => "undefined"
  end.

(** [`${n}`] for an integral number. *)
Definition number_to_string (n : Z) : string :=
  NilZero.string_of_int (Z.to_int n).

(** [Array.prototype.join]: [undefined] elements print as the empty string. *)
Fixpoint join (sep : string) (l : list (option string)) : string :=
  match l with
  | [] => ""
  | [x] => match x with Some s => s | None => "" end
  | x :: rest => match x with Some s => s | None => "" end ++ sep ++ join sep rest
  end.

(** The line feed of the literal ["\n"]. *)
Definition LF : string := String (ascii_of_nat 10) EmptyString.

(** The double quote, for JSON payloads written out in examples. *)
Definition DQ : string := String (ascii_of_nat 34) EmptyString.

(** A JSON value that is only carried along ([Record<string, unknown>]). *)
#[local] Set Warnings "-register-all".
Inductive Json : Type :=
| JNull
| JBool (b : bool)
| JNumber (x : float)
| JString (s : string)
| JArray (l : list Json)
| JObject (fields : list (string * Json)).

End Js.

(** * types.ts *)

Module Types.

Inductive ResponsesRole := RoleSystem | RoleUser | RoleAssistant | RoleDeveloper.

Inductive ContentPartType := InputText | OutputText | InputImage.

Record ResponsesContentPart := {
  part_type : ContentPartType;
  part_text : option string;
  part_image_url : option string
}.

(** [content: string | Array<ResponsesContentPart>] *)
Inductive ResponsesContent :=
| ContentString (s : string)
| ContentParts (parts : list ResponsesContentPart).

Inductive ItemType := TypeMessage | TypeToolResult.

Record ResponsesInputItem := {
  item_role : ResponsesRole;
  item_content : ResponsesContent;
  item_type : option ItemType;
  item_tool_call_id : option string;
  item_output : option string
}.

Inductive ToolType := ToolFunction | ToolWebSearchPreview | ToolFileSearch.

Record ResponsesToolFunction := {
  rtf_name : string;
  rtf_description : option string;
  rtf_parameters : option (list (string * Js.Json))
}.

Record ResponsesTool := {
  tool_type : ToolType;
  tool_function : option ResponsesToolFunction
}.

(** [input: string | Array<ResponsesInputItem>] *)
Inductive ResponsesInput :=
| InputString (s : string)
| InputItems (items : list ResponsesInputItem).

(** [tool_choice?: string | { type: string; function?: { name: string } }];
    [function] holds the [name] of the function object when there is one. *)
Inductive ResponsesToolChoice :=
| ChoiceString (s : string)
| ChoiceObject (type : string) (function : option string).

(** The fields of the request that the translation reads
    ([parallel_tool_calls], [store], [reasoning] and [text] are never read). *)
Record ResponsesApiRequest := {
  req_model : string;
  req_input : ResponsesInput;
  req_instructions : option string;
  req_tools : option (list ResponsesTool);
  req_tool_choice : option ResponsesToolChoice;
  req_max_output_tokens : option float;
  req_temperature : option float;
  req_top_p : option float;
  req_stream : option bool
}.

(** The three fields are JavaScript numbers, that is, IEEE 754 doubles. *)
Record ResponsesUsage := {
  input_tokens : float;
  output_tokens : float;
  total_tokens : float
}.

Inductive OutputItemType := ItemMessage | ItemFunctionCall | ItemReasoning.
Inductive ItemStatus := ItemCompleted | ItemInProgress.
Inductive OutputContentType := OutText | OutRefusal.

Record ResponsesOutputContent := {
  oc_type : OutputContentType;
  oc_text : option string
}.

(** [role] can only be ["assistant"]; [summary] (reasoning items) is never written. *)
Record ResponsesOutputItem := {
  out_id : string;
  out_type : OutputItemType;
  out_role_assistant : bool;
  out_status : option ItemStatus;
  out_content : option (list ResponsesOutputContent);
  out_name : option string;
  out_arguments : option string;
  out_call_id : option string
}.

Inductive ResponseStatus := Completed | Failed | InProgress.

(** [object] is the constant ["response"] and is not stored. *)
Record ResponsesApiResponse := {
  resp_id : string;
  resp_created_at : Z;
  resp_model : string;
  resp_output : list ResponsesOutputItem;
  resp_output_text : string;
  resp_usage : option ResponsesUsage;
  resp_status : ResponseStatus
}.

(** [Partial<ResponsesApiResponse>]: every field may be missing. *)
Record PartialResponse := {
  pr_id : option string;
  pr_object : option string;
  pr_created_at : option Z;
  pr_model : option string;
  pr_output : option (list ResponsesOutputItem);
  pr_output_text : option string;
  pr_usage : option ResponsesUsage;
  pr_status : option ResponseStatus
}.

Record ResponsesStreamEvent := {
  ev_type : string;
  ev_delta : option string;
  ev_item : option ResponsesOutputItem;
  ev_output_index : option Z;
  ev_content_index : option Z;
  ev_response : option PartialResponse
}.

End Types.

(** * The canonical chat-completions shapes *)

Module Chat.

(** Modelled from the spec: the declarations of
    [~/services/copilot/create-chat-completions] ([Message], [ContentPart],
    [Tool], [ChatCompletionsPayload], [ChatCompletionResponse],
    [ChatCompletionChunk]) are not part of the sources at hand.  The shapes
    below follow section 3 of the specification and the fields that
    [translation.ts] and [handler.ts] read and write. *)
Inductive Role := SystemRole | UserRole | AssistantRole | ToolRole.

(** Modelled from the spec: a typed content part (text, image reference) of
    the missing [ContentPart] declaration. *)
Inductive ContentPartKind := PartText | PartImageUrl.

(** Modelled from the spec: the fields of a canonical content part; a part
    may lack its [text] field, which the code tests with ["text" in p]. *)
Record ContentPart := {
  cp_type : ContentPartKind;
  cp_text : option string;
  cp_image_url : option string
}.

(** Modelled from the spec: [content] of the missing [Message] declaration,
    a plain string, a sequence of typed parts, or [null]. *)
Inductive MessageContent :=
| MString (s : string)
| MParts (parts : list ContentPart)
| MNull.

(** Modelled from the spec: the canonical tool call of the missing
    declaration: opaque id, name, and arguments as an unparsed string. *)
Record ToolCall := {
  call_id : string;
  call_name : string;
  call_arguments : string
}.

(** Modelled from the spec: the missing [Message] declaration. *)
Record Message := {
  role : Role;
  content : MessageContent;
  tool_call_id : option string;
  tool_calls : option (list ToolCall)
}.

(** Modelled from the spec: the missing [Tool] declaration, whose [type] is
    always ["function"]. *)
Record Tool := {
  fn_name : string;
  fn_description : option string;
  fn_parameters : list (string * Js.Json)
}.

(** Modelled from the spec: the tool-choice directive of the missing
    [ChatCompletionsPayload] declaration.  The source assigns a request
    string through a type assertion only, so the string form holds whatever
    string it was given. *)
Inductive ToolChoice :=
| ChoiceLiteral (s : string)
| ChoicePinned (name : string).

(** Modelled from the spec: the fields of the missing
    [ChatCompletionsPayload] declaration that the translation writes. *)
Record ChatCompletionsPayload := {
  model : string;
  messages : list Message;
  max_tokens : option float;
  temperature : option float;
  top_p : option float;
  stream : option bool;
  tools : option (list Tool);
  tool_choice : option ToolChoice
}.

(** Modelled from the spec: [usage] of the missing [ChatCompletionResponse]
    declaration; [upstream_total_tokens] is its [total_tokens].  The counts
    are JavaScript numbers, that is, IEEE 754 doubles. *)
Record Usage := {
  prompt_tokens : float;
  completion_tokens : float;
  upstream_total_tokens : float
}.

(** Modelled from the spec: one choice of the missing
    [ChatCompletionResponse] declaration. *)
Record Choice := {
  choice_index : Z;
  message : Message;
  finish_reason : option string
}.

(** Modelled from the spec: the missing [ChatCompletionResponse]
    declaration. *)
Record ChatCompletionResponse := {
  id : string;
  created : Z;
  response_model : string;
  choices : list Choice;
  usage : option Usage
}.

(** Modelled from the spec: the canonical partial-update record of the
    missing [ChatCompletionChunk] declaration: a tool-call fragment is
    identified by an index position and carries its id, name and argument
    increment as far as the backend has sent them. *)
Record ToolCallFunctionDelta := {
  fd_name : option string;
  fd_arguments : option string
}.

(** Modelled from the spec: one tool-call fragment of the missing
    [ChatCompletionChunk] declaration. *)
Record ToolCallDelta := {
  tc_index : Z;
  tc_id : option string;
  tc_function : option ToolCallFunctionDelta
}.

(** Modelled from the spec: the delta of one choice of the missing
    [ChatCompletionChunk] declaration: incremental text and tool-call
    fragments, each optional. *)
Record Delta := {
  delta_content : option string;
  delta_tool_calls : option (list ToolCallDelta)
}.

(** Modelled from the spec: one choice of the missing [ChatCompletionChunk]
    declaration.  The handler obtains a chunk with
    [JSON.parse(...) as ChatCompletionChunk], an assertion that checks
    nothing: the declared leaf types are kept, and the objects the code
    dereferences ([chunk.choices], [choice.delta]) and the [id] may be missing
    from what was parsed. *)
Record ChunkChoice := {
  cc_index : Z;
  cc_delta : option Delta;
  cc_finish_reason : option string
}.

(** Modelled from the spec: the missing [ChatCompletionChunk] declaration,
    with the fields that the handler reads. *)
Record ChatCompletionChunk := {
  chunk_id : option string;
  chunk_choices : option (list ChunkChoice)
}.

(** Modelled from the spec: what [createChatCompletions] resolves to, a
    complete response or a live sequence of server-sent events whose [data]
    is still to be decoded.  [data] is represented by what the built-in
    [JSON.parse] makes of it: a [SyntaxError], or the parsed value. *)
Inductive RawData :=
| Unparseable
| Parsed (chunk : ChatCompletionChunk).

(** Modelled from the spec: one server-sent event of the live sequence, of
    which the handler reads [data] only. *)
Record RawEvent := { data : RawData }.

(** Modelled from the spec: the two shapes of the backend's answer. *)
Inductive BackendResponse :=
| NonStreaming (response : ChatCompletionResponse)
| Streaming (events : list RawEvent).

End Chat.

(** * translation.ts *)

Module Translation.
Import Types Chat.

(** [!content] for a canonical message content: [null] and the empty string
    are falsy, an array is always truthy. *)
Definition content_truthy (c : MessageContent) : bool :=
  match c with
  | MString s => Js.truthy s
  | MParts _ => true
  | MNull => false
  end.

(** The predicate of the [filter] call of [translateContent]. *)
Definition is_text_part (part : ResponsesContentPart) : bool :=
  match part_type part with
  | InputText | OutputText => Js.truthy_opt (part_text part)
  | InputImage => false
  end.

Definition translateContent (content : option ResponsesContent) : MessageContent :=
  match content with
  | None => MNull
  | Some (ContentString s) => if Js.truthy s then MString s else MNull
  | Some (ContentParts parts) =>
      let textParts := map part_text (filter is_text_part parts) in
      if (0 <? Z.of_nat (length textParts)) then MString (Js.join Js.LF textParts)
      else MNull
  end.

(** The guard [item.type === "tool_result" && item.tool_call_id]. *)
Definition is_tool_result (item : ResponsesInputItem) : bool :=
  match item_type item with
  | Some TypeToolResult => Js.truthy_opt (item_tool_call_id item)
  | _ => false
  end.

(** [item.role === "developer" ? "system" : item.role] *)
Definition canonical_role (r : ResponsesRole) : Role :=
  match r with
  | RoleDeveloper => SystemRole
  | RoleSystem => SystemRole
  | RoleUser => UserRole
  | RoleAssistant => AssistantRole
  end.

Definition translateInputItem (item : ResponsesInputItem) : option Message :=
  if is_tool_result item then
    Some {| role := ToolRole;
            tool_call_id := item_tool_call_id item;
            content :=
              MString
                match item_output item with
                | Some output => output
                | None =>
                    match item_content item with
                    | ContentString s => s
                    | ContentParts _ => ""
                    end
                end;
            tool_calls := None |}
  else
    let content := translateContent (Some (item_content item)) in
    if negb (content_truthy content) then None
    else
      let role := canonical_role (item_role item) in
      Some {| role := role; content := content;
              tool_call_id := None; tool_calls := None |}.

Definition translateTools (tools : option (list ResponsesTool)) : option (list Tool) :=
  match tools with
  | None => None
  | Some [] => None
  | Some tools =>
      let result :=
        flat_map
          (fun tool =>
             match tool_type tool, tool_function tool with
             | ToolFunction, Some f =>
                 [ {| fn_name := rtf_name f;
                      fn_description := rtf_description f;
                      fn_parameters :=
                        match rtf_parameters f with
                        | Some p => p
                        | None => []
                        end |} ]
             | _, _ => []
             end)
          tools in
      if (0 <? Z.of_nat (length result)) then Some result else None
  end.

(** The [tool_choice] block of [translateResponsesToChat]. *)
Definition translateToolChoice (tool_choice : option ResponsesToolChoice) : option ToolChoice :=
  match tool_choice with
  | None => None
  | Some (ChoiceString s) =>
      if Js.truthy s then Some (ChoiceLiteral s) else None
  | Some (ChoiceObject type function) =>
      match function with
      | Some name =>
          if (type =? "function")%string && Js.truthy name
          then Some (ChoicePinned name)
          else None
      | None => None
      end
  end.

Definition translateResponsesToChat (request : ResponsesApiRequest) : ChatCompletionsPayload :=
  let messages0 :=
    match req_instructions request with
    | Some instructions =>
        if Js.truthy instructions
        then [ {| role := SystemRole; content := MString instructions;
                  tool_call_id := None; tool_calls := None |} ]
        else []
    | None => []
    end in
  let messages :=
    match req_input request with
    | InputString s =>
        (messages0 ++ [ {| role := UserRole; content := MString s;
                           tool_call_id := None; tool_calls := None |} ])%list
    | InputItems items =>
        fold_left
          (fun messages item =>
             match translateInputItem item with
             | Some message => (messages ++ [message])%list
             | None => messages
             end)
          items messages0
    end in
  {| model := req_model request;
     messages := messages;
     max_tokens := req_max_output_tokens request;
     temperature := req_temperature request;
     top_p := req_top_p request;
     stream := req_stream request;
     tools := translateTools (req_tools request);
     tool_choice := translateToolChoice (req_tool_choice request) |}.

Definition translateUsage (usage : option Usage) : option ResponsesUsage :=
  match usage with
  | None => None
  | Some usage =>
      Some {| input_tokens := prompt_tokens usage;
              output_tokens := completion_tokens usage;
              total_tokens :=
              PrimFloat.add (prompt_tokens usage) (completion_tokens usage) |}
  end.

(** The predicate of the [filter] call of [extractTextContent]:
    [p.type === "text" && "text" in p]. *)
Definition is_text (p : ContentPart) : bool :=
  match cp_type p, cp_text p with
  | PartText, Some _ => true
  | _, _ => false
  end.

Definition extractTextContent (content : MessageContent) : string :=
  match content with
  | MString s => s
  | MNull => ""
  | MParts parts => Js.join "" (map cp_text (filter is_text parts))
  end.

(** The body of the loop over [response.choices]; the pair is the mutable
    [output] array and the mutable [outputText]. *)
Definition translateChoice (response_id : string)
    (acc : list ResponsesOutputItem * string) (choice : Choice)
  : list ResponsesOutputItem * string :=
  let '(output, outputText) := acc in
  let message := Chat.message choice in
  let '(output, outputText) :=
    if content_truthy (content message) then
      let textContent := extractTextContent (content message) in
      if Js.truthy textContent then
        ((output ++ [ {| out_id := "msg_" ++ response_id;
                        out_type := ItemMessage;
                        out_role_assistant := true;
                        out_status := Some ItemCompleted;
                        out_content :=
                          Some [ {| oc_type := OutText; oc_text := Some textContent |} ];
                        out_name := None;
                        out_arguments := None;
                        out_call_id := None |} ])%list,
         textContent)
      else (output, outputText)
    else (output, outputText) in
  match tool_calls message with
  | Some calls =>
      ((output ++
         map (fun toolCall =>
                {| out_id := "fc_" ++ call_id toolCall;
                   out_type := ItemFunctionCall;
                   out_role_assistant := false;
                   out_status := Some ItemCompleted;
                   out_content := None;
                   out_name := Some (call_name toolCall);
                   out_arguments := Some (call_arguments toolCall);
                   out_call_id := Some (call_id toolCall) |})
             calls)%list,
       outputText)
  | None => (output, outputText)
  end.

Definition translateChatToResponses (response : ChatCompletionResponse) (model : string)
  : ResponsesApiResponse :=
  let '(output, outputText) :=
    fold_left (translateChoice (id response)) (choices response) ([], "") in
  {| resp_id := id response;
     resp_created_at := created response;
     resp_model :=
       if Js.truthy (response_model response) then response_model response else model;
     resp_output := output;
     resp_output_text := outputText;
     resp_usage := translateUsage (usage response);
     resp_status := Completed |}.

End Translation.

(** * handler.ts *)

Module Handler.
Import Types Chat Translation.

Record StreamState := {
  outputText : string;
  responseId : string;
  state_model : string;
  outputIndex : Z
}.

(** One message handed to [stream.writeSSE]; [sse_data] is the event object
    that the source serializes with [JSON.stringify]. *)
Record SSEMessage := {
  sse_event : string;
  sse_data : ResponsesStreamEvent
}.

(** ** Effects

    The handler mutates two objects that it passes by reference: the SSE
    [stream], seen here as the messages written so far, and the
    [StreamState].  A computation may complete normally or throw. *)

Inductive JsError := SyntaxError | TypeError.

Inductive Completion (A : Type) :=
| Normal (a : A)
| Thrown (e : JsError).
Arguments Normal {A} a.
Arguments Thrown {A} e.

Record World := {
  w_stream : list SSEMessage;
  w_state : StreamState
}.

Definition Async (A : Type) : Type := World -> Completion A * World.

Definition ret {A} (a : A) : Async A := fun w => (Normal a, w).

Definition bind {A B} (c : Async A) (k : A -> Async B) : Async B :=
  fun w =>
    match c w with
    | (Normal a, w') => k a w'
    | (Thrown e, w') => (Thrown e, w')
    end.

Definition throw {A} (e : JsError) : Async A := fun w => (Thrown e, w).

(** [try { body } catch { handler }]: what [body] did before throwing stays done. *)
Definition try_catch {A} (body : Async A) (handler : JsError -> Async A) : Async A :=
  fun w =>
    match body w with
    | (Normal a, w') => (Normal a, w')
    | (Thrown e, w') => handler e w'
    end.

Declare Scope async_scope.
Delimit Scope async_scope with async.
Notation "x <- c ;; k" := (bind c (fun x => k))
  (at level 100, c at next level, right associativity) : async_scope.
Notation "c ;; k" := (bind c (fun _ => k))
  (at level 100, right associativity) : async_scope.
Local Open Scope async_scope.

Definition get_state : Async StreamState := fun w => (Normal (w_state w), w).

Definition set_state (st : StreamState) : Async unit :=
  fun w => (Normal tt, {| w_stream := w_stream w; w_state := st |}).

(** [await stream.writeSSE(message)] *)
Definition writeSSE (message : SSEMessage) : Async unit :=
  fun w => (Normal tt, {| w_stream := (w_stream w ++ [message])%list; w_state := w_state w |}).

(** [for (const x of xs) await body(x)]; a throw leaves the loop. *)
Fixpoint for_of {A} (xs : list A) (body : A -> Async unit) : Async unit :=
  match xs with
  | [] => ret tt
  | x :: rest => body x ;; for_of rest body
  end.

(** Reading a property of a value that may be [undefined]: a [TypeError]. *)
Definition deref {A} (v : option A) : Async A :=
  match v with
  | Some a => ret a
  | None => throw TypeError
  end.

Definition JSON_parse (d : RawData) : Async ChatCompletionChunk :=
  match d with
  | Parsed chunk => ret chunk
  | Unparseable => throw SyntaxError
  end.

(** ** The functions of handler.ts

    [now] stands for the reading of [Date.now()] made by the function. *)

Definition createStreamState (now : Z) (model : string) : StreamState :=
  {| outputText := "";
     responseId := "resp_" ++ Js.number_to_string now;
     state_model := model;
     outputIndex := 0 |}.

(** The event objects that the [send...] functions build, under the names
    of their local constants. *)

Definition createdEvent (state : StreamState) (now : Z) : ResponsesStreamEvent :=
  {| ev_type := "response.created";
     ev_delta := None; ev_item := None;
     ev_output_index := None; ev_content_index := None;
     ev_response :=
       Some {| pr_id := Some (responseId state);
               pr_object := Some "response";
               pr_created_at := Some (now / 1000);
               pr_model := Some (state_model state);
               pr_output := Some [];
               pr_output_text := None;
               pr_usage := None;
               pr_status := Some InProgress |} |}.

Definition deltaEvent (content : string) (outputIndex : Z) : ResponsesStreamEvent :=
  {| ev_type := "response.output_text.delta";
     ev_delta := Some content; ev_item := None;
     ev_output_index := Some outputIndex; ev_content_index := Some 0;
     ev_response := None |}.

(** [toolCall.function?.name] and [toolCall.function?.arguments] *)
Definition function_name (toolCall : ToolCallDelta) : option string :=
  match tc_function toolCall with
  | Some f => fd_name f
  | None => None
  end.

Definition function_arguments (toolCall : ToolCallDelta) : option string :=
  match tc_function toolCall with
  | Some f => fd_arguments f
  | None => None
  end.

Definition funcStartEvent (toolCall : ToolCallDelta) (outputIndex : Z)
  : ResponsesStreamEvent :=
  {| ev_type := "response.function_call_arguments.start";
     ev_delta := None;
     ev_item :=
       Some {| out_id := "fc_" ++ Js.template (tc_id toolCall);
               out_type := ItemFunctionCall;
               out_role_assistant := false;
               out_status := Some ItemInProgress;
               out_content := None;
               out_name := function_name toolCall;
               out_arguments := None;
               out_call_id := tc_id toolCall |};
     ev_output_index := Some outputIndex; ev_content_index := None;
     ev_response := None |}.

Definition argsDeltaEvent (args : string) (outputIndex : Z) : ResponsesStreamEvent :=
  {| ev_type := "response.function_call_arguments.delta";
     ev_delta := Some args; ev_item := None;
     ev_output_index := Some outputIndex; ev_content_index := None;
     ev_response := None |}.

Definition textDoneEvent (outputIndex : Z) : ResponsesStreamEvent :=
  {| ev_type := "response.output_text.done";
     ev_delta := None; ev_item := None;
     ev_output_index := Some outputIndex; ev_content_index := Some 0;
     ev_response := None |}.

Definition doneEvent (state : StreamState) (now : Z) : ResponsesStreamEvent :=
  {| ev_type := "response.done";
     ev_delta := None; ev_item := None;
     ev_output_index := None; ev_content_index := None;
     ev_response :=
       Some {| pr_id := Some (responseId state);
               pr_object := Some "response";
               pr_created_at := Some (now / 1000);
               pr_model := Some (state_model state);
               pr_output := None;
               pr_output_text := Some (outputText state);
               pr_usage := None;
               pr_status := Some Completed |} |}.

Definition sendCreatedEvent (now : Z) : Async unit :=
  state <- get_state ;;
  writeSSE {| sse_event := "response.created"; sse_data := createdEvent state now |}.

Definition sendTextDeltaEvent (content : string) (outputIndex : Z) : Async unit :=
  writeSSE {| sse_event := "response.output_text.delta";
              sse_data := deltaEvent content outputIndex |}.

Definition sendFunctionCallStartEvent (toolCall : ToolCallDelta) (outputIndex : Z)
  : Async unit :=
  writeSSE {| sse_event := "response.function_call_arguments.start";
              sse_data := funcStartEvent toolCall outputIndex |}.

Definition sendFunctionCallDeltaEvent (args : string) (outputIndex : Z) : Async unit :=
  writeSSE {| sse_event := "response.function_call_arguments.delta";
              sse_data := argsDeltaEvent args outputIndex |}.

Definition sendTextDoneEvent (outputIndex : Z) : Async unit :=
  writeSSE {| sse_event := "response.output_text.done";
              sse_data := textDoneEvent outputIndex |}.

Definition sendDoneEvent (now : Z) : Async unit :=
  state <- get_state ;;
  writeSSE {| sse_event := "response.done"; sse_data := doneEvent state now |}.

Definition processToolCalls (toolCalls : option (list ToolCallDelta)) (outputIndex : Z)
  : Async unit :=
  match toolCalls with
  | None => ret tt
  | Some toolCalls =>
      for_of toolCalls
        (fun toolCall =>
           (if Js.truthy_opt (function_name toolCall)
            then sendFunctionCallStartEvent toolCall outputIndex
            else ret tt) ;;
           match function_arguments toolCall with
           | Some args =>
               if Js.truthy args
               then sendFunctionCallDeltaEvent args outputIndex
               else ret tt
           | None => ret tt
           end)
  end.

Definition processChoice (choice : ChunkChoice) : Async unit :=
  (* [delta.content] throws when [choice.delta] is undefined *)
  delta <- deref (cc_delta choice) ;;
  match delta_content delta with
  | Some content =>
      if Js.truthy content then
        state <- get_state ;;
        set_state {| outputText := outputText state ++ content;
                     responseId := responseId state;
                     state_model := state_model state;
                     outputIndex := outputIndex state |} ;;
        state <- get_state ;;
        sendTextDeltaEvent content (outputIndex state)
      else ret tt
  | None => ret tt
  end ;;
  match delta_tool_calls delta with
  | Some toolCalls =>
      state <- get_state ;;
      processToolCalls (Some toolCalls) (outputIndex state)
  | None => ret tt
  end ;;
  state <- get_state ;;
  if Js.truthy_opt (cc_finish_reason choice) && Js.truthy (outputText state)
  then sendTextDoneEvent (outputIndex state)
  else ret tt.

Definition processStreamChunk (rawEvent : RawEvent) : Async unit :=
  try_catch
    (chunk <- JSON_parse (data rawEvent) ;;
     match chunk_id chunk with
     | Some id =>
         if Js.truthy id then
           state <- get_state ;;
           set_state {| outputText := outputText state;
                        responseId := id;
                        state_model := state_model state;
                        outputIndex := outputIndex state |}
         else ret tt
     | None => ret tt
     end ;;
     (* [for ... of undefined] throws *)
     choices <- deref (chunk_choices chunk) ;;
     for_of choices processChoice)
    (fun _ =>
       (* Skip malformed chunks; the debug log is not modelled *)
       ret tt).

(** The callback that [handleResponses] hands to [streamSSE]; [t0], [t1], [t2]
    are the three readings of the clock it makes. *)
Definition streamCallback (model : string) (t0 t1 t2 : Z) (response : list RawEvent)
  : Completion unit * World :=
  let streamState := createStreamState t0 model in
  (sendCreatedEvent t1 ;;
   for_of response processStreamChunk ;;
   sendDoneEvent t2)
    {| w_stream := []; w_state := streamState |}.

Inductive HttpResponse :=
| JsonBody (body : ResponsesApiResponse)
| EventStream (events : list SSEMessage).

Section Collaborators.

(** The backend call and the clock are external to the handler. *)
Variable createChatCompletions : ChatCompletionsPayload -> BackendResponse.
Variable Date_now : nat -> Z.

(** Rate limiting, manual approval and debug logging are not modelled. *)
Definition handleResponses (request : ResponsesApiRequest) : HttpResponse :=
  let chatPayload := translateResponsesToChat request in
  match createChatCompletions chatPayload with
  | NonStreaming response =>
      JsonBody (translateChatToResponses response (req_model request))
  | Streaming response =>
      EventStream
        (w_stream
           (snd (streamCallback (req_model request)
                   (Date_now 0%nat) (Date_now 1%nat) (Date_now 2%nat) response)))
  end.

End Collaborators.

End Handler.

(** * Vocabulary of the properties *)

Module Vocabulary.
Import Types Chat Translation Handler.

(** ** Content parts *)

(** A part that bears the text [t]: a text kind with a non-empty [text]. *)
Definition text_bearing (part : ResponsesContentPart) (t : string) : Prop :=
  (part_type part = InputText \/ part_type part = OutputText)
  /\ part_text part = Some t /\ t <> "".

(** Any other part: an image, or a text kind without text. *)
Definition non_text (part : ResponsesContentPart) : Prop :=
  part_type part = InputImage \/ part_text part = None \/ part_text part = Some "".

(** [Interleaved texts parts]: [parts] consists of parts bearing [texts], in
    that order, with non-text parts anywhere in between. *)
Inductive Interleaved : list string -> list ResponsesContentPart -> Prop :=
| Interleaved_nil : Interleaved [] []
| Interleaved_text t part texts parts :
    text_bearing part t -> Interleaved texts parts ->
    Interleaved (t :: texts) (part :: parts)
| Interleaved_other part texts parts :
    non_text part -> Interleaved texts parts ->
    Interleaved texts (part :: parts).

(** The texts of the canonical parts of type ["text"], in order. *)
Fixpoint texts_of (parts : list ContentPart) : list string :=
  match parts with
  | [] => []
  | p :: rest =>
      match cp_type p, cp_text p with
      | PartText, Some t => t :: texts_of rest
      | _, _ => texts_of rest
      end
  end.

(** ** Tool results *)

(** The invariant of tool-result messages as the specification words it:
    role [tool], a [tool_call_id], non-empty content. *)
Definition tool_result_message_as_specified (item : ResponsesInputItem) : Prop :=
  exists m, translateInputItem item = Some m
    /\ role m = ToolRole
    /\ tool_call_id m <> None
    /\ content_truthy (content m) = true.

(** What the content of a tool-result message is made of. *)
Definition tool_result_content (item : ResponsesInputItem) : string :=
  match item_output item, item_content item with
  | Some output, _ => output
  | None, ContentString s => s
  | None, ContentParts _ => ""
  end.

(** ** Tool choice *)

(** The mapping of [tool_choice] as the specification words it: only the
    three recognized literals pass through. *)
Definition tool_choice_as_specified (tc : option ResponsesToolChoice) : option ToolChoice :=
  match tc with
  | Some (ChoiceString s) =>
      if ((s =? "auto") || (s =? "none") || (s =? "required"))%string
      then Some (ChoiceLiteral s) else None
  | Some (ChoiceObject type (Some name)) =>
      if ((type =? "function") && negb (name =? ""))%string
      then Some (ChoicePinned name) else None
  | _ => None
  end.

(** The mapping of [tool_choice] that the translation implements. *)
Inductive ToolChoiceMapping : option ResponsesToolChoice -> option ToolChoice -> Prop :=
| Mapping_string s :
    s <> "" ->
    ToolChoiceMapping (Some (ChoiceString s)) (Some (ChoiceLiteral s))
| Mapping_empty_string :
    ToolChoiceMapping (Some (ChoiceString "")) None
| Mapping_function name :
    name <> "" ->
    ToolChoiceMapping (Some (ChoiceObject "function" (Some name))) (Some (ChoicePinned name))
| Mapping_function_unnamed type name :
    name = None \/ name = Some "" ->
    ToolChoiceMapping (Some (ChoiceObject type name)) None
| Mapping_other_object type name :
    type <> "function" ->
    ToolChoiceMapping (Some (ChoiceObject type name)) None
| Mapping_absent :
    ToolChoiceMapping None None.

(** ** Numbers *)

(** The integer that a finite double denotes, when it denotes one. *)
Definition sf_integer (x : spec_float) : option Z :=
  match x with
  | S754_zero _ => Some 0
  | S754_finite s m e =>
      if 0 <=? e then Some (cond_Zopp s (Zpos m * 2 ^ e))
      else if Zpos m mod 2 ^ (- e) =? 0
           then Some (cond_Zopp s (Zpos m / 2 ^ (- e)))
           else None
  | _ => None
  end.

(** The integer that a JavaScript number denotes, when it denotes one. *)
Definition integer_value (x : float) : option Z := sf_integer (Prim2SF x).

(** The mantissa [m] at exponent [e] denotes the integer [S]. *)
Definition represents (m e S : Z) : Prop :=
  if 0 <=? e then S = m * 2 ^ e else m = S * 2 ^ (- e).

(** A shift record that has lost no bit. *)
Definition lossless (m : Z) : shr_record :=
  {| shr_m := m; shr_r := false; shr_s := false |}.

(** The projected total as the specification words it: the exact sum of the
    two counts. *)
Definition total_is_exact_sum (response : ChatCompletionResponse) (model : string)
    (p c : Z) : Prop :=
  exists r,
    resp_usage (translateChatToResponses response model) = Some r
    /\ integer_value (total_tokens r) = Some (p + c).

(** ** Content parts of any item *)

(** The collapse of content parts as the specification words it, for any
    item: the content is the joined texts, and an item without text is
    dropped. *)
Definition parts_collapse_as_specified (item : ResponsesInputItem) : Prop :=
  forall texts parts,
    item_content item = ContentParts parts ->
    Interleaved texts parts ->
    match texts with
    | [] => translateInputItem item = None
    | _ :: _ =>
        exists m,
          translateInputItem item = Some m
          /\ content m = MString (String.concat Js.LF texts)
    end.

End Vocabulary.

(** * Sample inputs *)

Module Samples.
Import Types Chat Translation Handler.

Definition text_part (t : string) : ResponsesContentPart :=
  {| part_type := InputText; part_text := Some t; part_image_url := None |}.

Definition image_part (url : string) : ResponsesContentPart :=
  {| part_type := InputImage; part_text := None; part_image_url := Some url |}.

(** A user message with an image between two texts. *)
Definition mixed_item : ResponsesInputItem :=
  {| item_role := RoleUser;
     item_content :=
       ContentParts [ text_part "First part."; image_part "https://example.com/a.png";
                      text_part "Second part." ];
     item_type := None;
     item_tool_call_id := None;
     item_output := None |}.

(** The tool result of the test suite. *)
Definition weather_result : ResponsesInputItem :=
  {| item_role := RoleUser;
     item_content := ContentString "Get weather";
     item_type := Some TypeToolResult;
     item_tool_call_id := Some "call_123";
     item_output := Some "Weather is sunny" |}.

(** A tool result that keeps its text in content parts and has no [output]. *)
Definition parts_result : ResponsesInputItem :=
  {| item_role := RoleUser;
     item_content := ContentParts [ text_part "Weather is sunny" ];
     item_type := Some TypeToolResult;
     item_tool_call_id := Some "call_123";
     item_output := None |}.

(** A tool result that answers a call with an image only. *)
Definition image_result : ResponsesInputItem :=
  {| item_role := RoleUser;
     item_content := ContentParts [ image_part "https://example.com/a.png" ];
     item_type := Some TypeToolResult;
     item_tool_call_id := Some "call_123";
     item_output := None |}.

(** A usage whose counts add up beyond the integers that doubles hold
    exactly. *)
Definition large_usage : Usage :=
  {| prompt_tokens := 9007199254740992%float; completion_tokens := 1%float;
     upstream_total_tokens := 0%float |}.

(** A tool result that does not say which call it answers. *)
Definition orphan_result : ResponsesInputItem :=
  {| item_role := RoleDeveloper;
     item_content := ContentString "Weather is sunny";
     item_type := Some TypeToolResult;
     item_tool_call_id := None;
     item_output := Some "ignored" |}.

Definition request_with_tool_choice (tc : option ResponsesToolChoice) : ResponsesApiRequest :=
  {| req_model := "gpt-5.2";
     req_input := InputString "Hello";
     req_instructions := None;
     req_tools := None;
     req_tool_choice := tc;
     req_max_output_tokens := None;
     req_temperature := None;
     req_top_p := None;
     req_stream := None |}.

(** The usage of the test suite, with an upstream total that disagrees. *)
Definition disagreeing_usage : Usage :=
  {| prompt_tokens := 10%float; completion_tokens := 8%float;
     upstream_total_tokens := 99%float |}.

Definition response_with (c : MessageContent) (u : option Usage) : ChatCompletionResponse :=
  {| id := "chatcmpl-123";
     created := 1700000000;
     response_model := "gpt-5.2";
     choices :=
       [ {| choice_index := 0;
            message := {| role := AssistantRole; content := c;
                          tool_call_id := None; tool_calls := None |};
            finish_reason := Some "stop" |} ];
     usage := u |}.

End Samples.

(** * Vocabulary of the streaming properties *)

Module StreamVocabulary.
Import Types Chat Translation Handler.

(** The SSE message that carries an event object. *)
Definition message_of (ev : ResponsesStreamEvent) : SSEMessage :=
  {| sse_event := ev_type ev; sse_data := ev |}.

Definition is_text_delta (m : SSEMessage) : bool :=
  (sse_event m =? "response.output_text.delta")%string.
Definition is_text_done (m : SSEMessage) : bool :=
  (sse_event m =? "response.output_text.done")%string.
Definition is_call_start (m : SSEMessage) : bool :=
  (sse_event m =? "response.function_call_arguments.start")%string.
Definition is_args_delta (m : SSEMessage) : bool :=
  (sse_event m =? "response.function_call_arguments.delta")%string.
Definition is_done (m : SSEMessage) : bool :=
  (sse_event m =? "response.done")%string.

(** The output slot an event belongs to: output index and content index. *)
Definition slot_of (m : SSEMessage) : option Z * option Z :=
  (ev_output_index (sse_data m), ev_content_index (sse_data m)).

(** The increments carried by the events of [l] that satisfy [kind]. *)
Definition deltas (kind : SSEMessage -> bool) (l : list SSEMessage) : list string :=
  flat_map (fun m => match ev_delta (sse_data m) with Some d => [d] | None => [] end)
    (filter kind l).

(** Some text-delta event of [l] belongs to [slot]. *)
Definition has_delta (slot : option Z * option Z) (l : list SSEMessage) : Prop :=
  exists d, In d l /\ is_text_delta d = true /\ slot_of d = slot.

(** Every text-done event of [l] comes after a text-delta event of its slot. *)
Definition done_follows_delta (l : list SSEMessage) : Prop :=
  forall pre m post,
    l = (pre ++ m :: post)%list -> is_text_done m = true -> has_delta (slot_of m) pre.

(** The last event of [l] is the terminal done event, and the only one. *)
Definition terminal_done_last (l : list SSEMessage) : Prop :=
  exists pre last,
    l = (pre ++ [last])%list /\ is_done last = true /\ existsb is_done pre = false.

(** The events that [c] writes to a fresh stream. *)
Definition emitted (c : Async unit) (state : StreamState) : list SSEMessage :=
  w_stream (snd (c {| w_stream := []; w_state := state |})).

(** What one tool-call fragment makes the sequencer emit. *)
Definition fragment_events (outputIndex : Z) (toolCall : ToolCallDelta) : list SSEMessage :=
  ((if Js.truthy_opt (function_name toolCall)
    then [message_of (funcStartEvent toolCall outputIndex)] else [])
   ++
   match function_arguments toolCall with
   | Some args =>
       if Js.truthy args then [message_of (argsDeltaEvent args outputIndex)] else []
   | None => []
   end)%list.

(** The start events as the specification words them: one per tool-call
    index that the fragments introduce. *)
Definition start_once_per_index (toolCalls : list ToolCallDelta) : Prop :=
  forall outputIndex state,
    length (filter is_call_start
              (emitted (processToolCalls (Some toolCalls) outputIndex) state))
    = length (nodup Z.eq_dec (map tc_index toolCalls)).

(** A parsed value that has the shape of a chunk: its choices are there and
    each has its delta. *)
Definition well_formed_chunk (chunk : ChatCompletionChunk) : bool :=
  match chunk_choices chunk with
  | Some choices =>
      forallb (fun c => match cc_delta c with Some _ => true | None => false end) choices
  | None => false
  end.

Definition decodable (d : RawData) : bool :=
  match d with
  | Parsed chunk => well_formed_chunk chunk
  | Unparseable => false
  end.

(** The record is discarded: no event, and the state as it was. *)
Definition discarded (rawEvent : RawEvent) (w : World) : Prop :=
  processStreamChunk rawEvent w = (Normal tt, w).

(** The response id after a chunk with id [id] has been seen. *)
Definition adopt (id : option string) (current : string) : string :=
  if Js.truthy_opt id then Js.template id else current.

(** The state with another accumulated text and response id. *)
Definition with_text (state : StreamState) (text id : string) : StreamState :=
  {| outputText := text; responseId := id;
     state_model := state_model state; outputIndex := outputIndex state |}.

(** The invariant of the sequencer loop: the stream is ordered so far, the
    terminal event has not been sent, and accumulated text means that a text
    delta went out for the text slot. *)
Definition stream_invariant (w : World) : Prop :=
  done_follows_delta (w_stream w)
  /\ existsb is_done (w_stream w) = false
  /\ (outputText (w_state w) <> "" ->
      has_delta (Some (outputIndex (w_state w)), Some 0) (w_stream w)).

(** [w'] is reached from [w] by emitting events, none of them terminal, and
    the accumulated text has grown by exactly the text deltas emitted. *)
Definition advances (w w' : World) : Prop :=
  exists evs,
    w_stream w' = (w_stream w ++ evs)%list
    /\ outputText (w_state w') =
         outputText (w_state w) ++ String.concat "" (deltas is_text_delta evs)
    /\ state_model (w_state w') = state_model (w_state w)
    /\ outputIndex (w_state w') = outputIndex (w_state w)
    /\ existsb is_done evs = false.

End StreamVocabulary.

(** * Sample streams *)

Module StreamSamples.
Import Types Chat Translation Handler.

(** A chunk with one choice that carries a text delta. *)
Definition text_chunk (id : option string) (content : string) (reason : option string)
  : RawEvent :=
  {| data :=
       Parsed {| chunk_id := id;
                 chunk_choices :=
                   Some [ {| cc_index := 0;
                             cc_delta := Some {| delta_content := Some content;
                                                 delta_tool_calls := None |};
                             cc_finish_reason := reason |} ] |} |}.

(** A chunk with one choice that carries one tool-call fragment. *)
Definition fragment_chunk (toolCall : ToolCallDelta) : RawEvent :=
  {| data :=
       Parsed {| chunk_id := Some "chatcmpl-456";
                 chunk_choices :=
                   Some [ {| cc_index := 0;
                             cc_delta := Some {| delta_content := None;
                                                 delta_tool_calls := Some [toolCall] |};
                             cc_finish_reason := None |} ] |} |}.

(** [{index:0, id:"c1", function:{name:"get_weather"}}] *)
Definition weather_call : ToolCallDelta :=
  {| tc_index := 0; tc_id := Some "c1";
     tc_function := Some {| fd_name := Some "get_weather"; fd_arguments := None |} |}.

(** A fragment of call 0 that only carries arguments. *)
Definition arguments_fragment (args : string) : ToolCallDelta :=
  {| tc_index := 0; tc_id := None;
     tc_function := Some {| fd_name := None; fd_arguments := Some args |} |}.

(** The two halves of the arguments and the whole. *)
Definition args_first : string := "{" ++ Js.DQ ++ "loc" ++ Js.DQ ++ ":".
Definition args_second : string := Js.DQ ++ "NYC" ++ Js.DQ ++ "}".
Definition args_whole : string :=
  "{" ++ Js.DQ ++ "loc" ++ Js.DQ ++ ":" ++ Js.DQ ++ "NYC" ++ Js.DQ ++ "}".

(** A later fragment of call 0 that names the function again. *)
Definition weather_call_again : ToolCallDelta :=
  {| tc_index := 0; tc_id := Some "c1";
     tc_function := Some {| fd_name := Some "get_weather";
                            fd_arguments := Some "{}" |} |}.

(** A record that parses, whose first choice is fine and whose second has no
    delta. *)
Definition truncated_record : RawEvent :=
  {| data :=
       Parsed {| chunk_id := Some "chatcmpl-123";
                 chunk_choices :=
                   Some [ {| cc_index := 0;
                             cc_delta := Some {| delta_content := Some "Hi";
                                                 delta_tool_calls := None |};
                             cc_finish_reason := None |};
                          {| cc_index := 1; cc_delta := None;
                             cc_finish_reason := None |} ] |} |}.

Definition fresh_world : World :=
  {| w_stream := []; w_state := createStreamState 1700000000123 "gpt-5.2" |}.

End StreamSamples.

(** * Vocabulary of the further properties *)

Module TranslationVocabulary.
Import Types Chat Translation.

Definition system_message (instructions : string) : Message :=
  {| role := SystemRole; content := MString instructions;
     tool_call_id := None; tool_calls := None |}.

Definition user_message (input : string) : Message :=
  {| role := UserRole; content := MString input;
     tool_call_id := None; tool_calls := None |}.

(** The message that the instructions of a request give rise to, if any. *)
Definition instructions_messages (request : ResponsesApiRequest) : list Message :=
  match req_instructions request with
  | Some instructions => if Js.truthy instructions then [system_message instructions] else []
  | None => []
  end.

(** The messages of the items that are not dropped, in order. *)
Definition surviving (items : list ResponsesInputItem) : list Message :=
  flat_map
    (fun item => match translateInputItem item with Some m => [m] | None => [] end)
    items.

(** The function block of a tool of type [function], if it has one. *)
Definition function_of (tool : ResponsesTool) : list ResponsesToolFunction :=
  match tool_type tool, tool_function tool with
  | ToolFunction, Some f => [f]
  | _, _ => []
  end.

(** The canonical tool of a function block. *)
Definition canonical_tool (f : ResponsesToolFunction) : Tool :=
  {| fn_name := rtf_name f;
     fn_description := rtf_description f;
     fn_parameters := match rtf_parameters f with Some p => p | None => [] end |}.

(** The text of a choice of a complete response. *)
Definition choice_text (choice : Choice) : string :=
  extractTextContent (content (message choice)).

(** The non-empty texts of the choices, in order. *)
Definition texts_of_choices (choices : list Choice) : list string :=
  filter Js.truthy (map choice_text choices).

(** The tool calls of the choices, in order. *)
Definition calls_of_choices (choices : list Choice) : list ToolCall :=
  flat_map
    (fun choice => match tool_calls (message choice) with Some l => l | None => [] end)
    choices.

Definition is_message_item (item : ResponsesOutputItem) : bool :=
  match out_type item with ItemMessage => true | _ => false end.

Definition is_function_call_item (item : ResponsesOutputItem) : bool :=
  match out_type item with ItemFunctionCall => true | _ => false end.

(** The message item that projection makes of a text. *)
Definition message_item (response_id text : string) : ResponsesOutputItem :=
  {| out_id := "msg_" ++ response_id;
     out_type := ItemMessage;
     out_role_assistant := true;
     out_status := Some ItemCompleted;
     out_content := Some [ {| oc_type := OutText; oc_text := Some text |} ];
     out_name := None;
     out_arguments := None;
     out_call_id := None |}.

(** The function-call item that projection makes of a tool call. *)
Definition function_call_item (toolCall : ToolCall) : ResponsesOutputItem :=
  {| out_id := "fc_" ++ call_id toolCall;
     out_type := ItemFunctionCall;
     out_role_assistant := false;
     out_status := Some ItemCompleted;
     out_content := None;
     out_name := Some (call_name toolCall);
     out_arguments := Some (call_arguments toolCall);
     out_call_id := Some (call_id toolCall) |}.

(** The output items that projection makes of one choice: its message item,
    when it has text, before its function-call items. *)
Definition choice_items (response_id : string) (choice : Choice) : list ResponsesOutputItem :=
  ((if Js.truthy (choice_text choice)
    then [message_item response_id (choice_text choice)] else [])
   ++ map function_call_item
        (match tool_calls (message choice) with Some l => l | None => [] end))%list.

(** Sample requests and responses. *)

Definition empty_string_item : ResponsesInputItem :=
  {| item_role := RoleUser; item_content := ContentString "";
     item_type := None; item_tool_call_id := None; item_output := None |}.

Definition image_only_item : ResponsesInputItem :=
  {| item_role := RoleUser;
     item_content :=
       ContentParts [ {| part_type := InputImage; part_text := None;
                         part_image_url := Some "https://example.com/a.png" |} ];
     item_type := None; item_tool_call_id := None; item_output := None |}.

Definition hello_item : ResponsesInputItem :=
  {| item_role := RoleUser; item_content := ContentString "Hello!";
     item_type := None; item_tool_call_id := None; item_output := None |}.

Definition request_of (instructions : option string) (input : ResponsesInput)
  : ResponsesApiRequest :=
  {| req_model := "gpt-5.2";
     req_input := input;
     req_instructions := instructions;
     req_tools := None;
     req_tool_choice := None;
     req_max_output_tokens := None;
     req_temperature := None;
     req_top_p := None;
     req_stream := None |}.

Definition weather_tool : ResponsesTool :=
  {| tool_type := ToolFunction;
     tool_function :=
       Some {| rtf_name := "get_weather";
               rtf_description := Some "Get current weather";
               rtf_parameters := None |} |}.

Definition search_tool : ResponsesTool :=
  {| tool_type := ToolWebSearchPreview; tool_function := None |}.

Definition unnamed_model_response : ChatCompletionResponse :=
  {| id := "chatcmpl-000";
     created := 1700000000;
     response_model := "";
     choices :=
       [ {| choice_index := 0;
            message := {| role := AssistantRole; content := MString "Hello";
                          tool_call_id := None; tool_calls := None |};
            finish_reason := Some "stop" |} ];
     usage := None |}.

End TranslationVocabulary.

Module TraceVocabulary.
Import Types Chat Translation Handler StreamVocabulary.

(** The choices of a chunk that the loop of [processStreamChunk] gets through:
    those before the first choice without a delta. *)
Fixpoint processed (choices : list ChunkChoice) : list ChunkChoice :=
  match choices with
  | [] => []
  | choice :: rest =>
      match cc_delta choice with
      | Some _ => choice :: processed rest
      | None => []
      end
  end.

(** The choices of a record that are processed: none when the data does not
    parse or the parsed value has no choices. *)
Definition record_choices (rawEvent : RawEvent) : list ChunkChoice :=
  match data rawEvent with
  | Parsed chunk =>
      match chunk_choices chunk with
      | Some choices => processed choices
      | None => []
      end
  | Unparseable => []
  end.

(** The id that a record carries. *)
Definition record_id (rawEvent : RawEvent) : option string :=
  match data rawEvent with
  | Parsed chunk => chunk_id chunk
  | Unparseable => None
  end.

(** The response id after the records of [response]. *)
Definition final_id (response : list RawEvent) (placeholder : string) : string :=
  fold_left (fun current rawEvent => adopt (record_id rawEvent) current) response placeholder.

(** The non-empty text increment of a choice. *)
Definition delta_texts (choice : ChunkChoice) : list string :=
  match cc_delta choice with
  | Some delta =>
      match delta_content delta with
      | Some content => if Js.truthy content then [content] else []
      | None => []
      end
  | None => []
  end.

(** The tool-call fragments of a choice. *)
Definition delta_calls (choice : ChunkChoice) : list ToolCallDelta :=
  match cc_delta choice with
  | Some delta =>
      match delta_tool_calls delta with
      | Some toolCalls => toolCalls
      | None => []
      end
  | None => []
  end.

(** The non-empty argument increment of a fragment. *)
Definition call_arguments (toolCall : ToolCallDelta) : list string :=
  match function_arguments toolCall with
  | Some args => if Js.truthy args then [args] else []
  | None => []
  end.

Definition named (toolCall : ToolCallDelta) : bool :=
  Js.truthy_opt (function_name toolCall).

Definition finished (choice : ChunkChoice) : bool :=
  Js.truthy_opt (cc_finish_reason choice).

(** The texts, fragments and finished choices of a whole stream. *)
Definition stream_choices (response : list RawEvent) : list ChunkChoice :=
  flat_map record_choices response.

Definition stream_texts (response : list RawEvent) : list string :=
  flat_map delta_texts (stream_choices response).

Definition stream_calls (response : list RawEvent) : list ToolCallDelta :=
  flat_map delta_calls (stream_choices response).

(** An event between the created and the done event: one of the four
    incremental kinds, named after its type, in output slot [index], with no
    response object. *)
Definition middle_event (index : Z) (m : SSEMessage) : Prop :=
  sse_event m = ev_type (sse_data m)
  /\ ev_output_index (sse_data m) = Some index
  /\ ev_response (sse_data m) = None
  /\ (is_text_delta m || is_text_done m || is_call_start m || is_args_delta m) = true.

(** The events [evs] are those of the choices [cs]. *)
Definition traces (index : Z) (cs : list ChunkChoice) (evs : list SSEMessage) : Prop :=
  filter is_text_delta evs
    = map (fun s => message_of (deltaEvent s index)) (flat_map delta_texts cs)
  /\ filter is_call_start evs
     = map (fun toolCall => message_of (funcStartEvent toolCall index))
         (filter named (flat_map delta_calls cs))
  /\ filter is_args_delta evs
     = map (fun args => message_of (argsDeltaEvent args index))
         (flat_map call_arguments (flat_map delta_calls cs))
  /\ Forall (middle_event index) evs
  /\ (length (filter is_text_done evs) <= length (filter finished cs))%nat.

(** [w'] is reached from [w] by processing the choices [cs] and ending with
    response id [id]. *)
Definition reaches (cs : list ChunkChoice) (id : string) (w w' : World) : Prop :=
  exists evs,
    w_stream w' = (w_stream w ++ evs)%list
    /\ traces (outputIndex (w_state w)) cs evs
    /\ w_state w' =
         with_text (w_state w)
           (outputText (w_state w) ++ String.concat "" (flat_map delta_texts cs)) id
    /\ (outputText (w_state w') = "" -> filter is_text_done evs = []).

(** The accumulated text and the response id that the last event of a stream
    reports. *)
Definition terminal_text (events : list SSEMessage) : option string :=
  match ev_response (sse_data (last events (message_of (textDoneEvent 0)))) with
  | Some r => pr_output_text r
  | None => None
  end.

Definition terminal_id (events : list SSEMessage) : option string :=
  match ev_response (sse_data (last events (message_of (textDoneEvent 0)))) with
  | Some r => pr_id r
  | None => None
  end.

(** The response object of the first and of the last event of a stream. *)
Definition first_response (events : list SSEMessage) : option PartialResponse :=
  match events with
  | m :: _ => ev_response (sse_data m)
  | [] => None
  end.

Definition last_response (events : list SSEMessage) : option PartialResponse :=
  ev_response (sse_data (last events (message_of (textDoneEvent 0)))).

(** The item that a function-call start event reports for a fragment. *)
Definition start_item (toolCall : ToolCallDelta) : ResponsesOutputItem :=
  {| out_id := "fc_" ++ match tc_id toolCall with Some id => id | None => "undefined" end;
     out_type := ItemFunctionCall;
     out_role_assistant := false;
     out_status := Some ItemInProgress;
     out_content := None;
     out_name :=
       match tc_function toolCall with
       | Some f => fd_name f
       | None => None
       end;
     out_arguments := None;
     out_call_id := tc_id toolCall |}.

(** The events that the stream callback writes. *)
Definition events_of (model : string) (t0 t1 t2 : Z) (response : list RawEvent)
  : list SSEMessage :=
  w_stream (snd (streamCallback model t0 t1 t2 response)).

(** Sample records and collaborators. *)

Definition done_sentinel : RawEvent := {| data := Unparseable |}.

Definition stop_chunk : RawEvent :=
  {| data :=
       Parsed {| chunk_id := Some "chatcmpl-123";
                 chunk_choices :=
                   Some [ {| cc_index := 0;
                             cc_delta := Some {| delta_content := None;
                                                 delta_tool_calls := None |};
                             cc_finish_reason := Some "stop" |} ] |} |}.

Definition hello_chunk : RawEvent :=
  {| data :=
       Parsed {| chunk_id := Some "chatcmpl-123";
                 chunk_choices :=
                   Some [ {| cc_index := 0;
                             cc_delta := Some {| delta_content := Some "Hello";
                                                 delta_tool_calls := None |};
                             cc_finish_reason := None |} ] |} |}.

Definition streaming_backend (payload : ChatCompletionsPayload) : BackendResponse :=
  Streaming [hello_chunk; stop_chunk; done_sentinel].

Definition complete_backend (payload : ChatCompletionsPayload) : BackendResponse :=
  NonStreaming
    {| id := "chatcmpl-000";
       created := 1700000000;
       response_model := "";
       choices :=
         [ {| choice_index := 0;
              message := {| role := AssistantRole; content := MString "Hello";
                            tool_call_id := None; tool_calls := None |};
              finish_reason := Some "stop" |} ];
       usage := None |}.

Definition sample_clock (n : nat) : Z := 1700000000123 + Z.of_nat n.

End TraceVocabulary.

(** * Properties of the request normalizer and the response projector *)

Section TranslationProperties.
Import Types Chat Translation Vocabulary Samples.

Lemma truthy_nonempty (s : string) : Js.truthy s = true <-> s <> "".
Proof. destruct s; cbn; split; congruence. Qed.

Lemma truthy_append (s t : string) : Js.truthy s = true -> Js.truthy (s ++ t) = true.
Proof. destruct s; cbn; congruence. Qed.

Lemma join_present (sep : string) (texts : list string) :
  Js.join sep (map Some texts) = String.concat sep texts.
Proof.
  induction texts as [| t [| t' rest] IH]; cbn in *; try reflexivity.
  now rewrite IH.
Qed.

Lemma is_text_part_bearing part t : text_bearing part t -> is_text_part part = true.
Proof.
  intros [Hk [Ht Hne]]. unfold is_text_part. rewrite Ht.
  destruct Hk as [-> | ->]; cbn; now apply truthy_nonempty.
Qed.

Lemma is_text_part_other part : non_text part -> is_text_part part = false.
Proof.
  unfold is_text_part. intros [-> | [-> | ->]]; try reflexivity;
    destruct (part_type part); reflexivity.
Qed.

Lemma interleaved_text_parts texts parts :
  Interleaved texts parts ->
  map part_text (filter is_text_part parts) = map Some texts.
Proof.
  induction 1 as [| t part texts parts Ht _ IH | part texts parts Ho _ IH]; cbn.
  - reflexivity.
  - rewrite (is_text_part_bearing _ _ Ht). cbn. rewrite IH.
    destruct Ht as [_ [-> _]]. reflexivity.
  - now rewrite (is_text_part_other _ Ho).
Qed.

Lemma interleaved_nonempty texts parts :
  Interleaved texts parts -> Forall (fun t => t <> "") texts.
Proof.
  induction 1 as [| t part texts parts Ht _ IH | part texts parts _ _ IH]; auto.
  constructor; [apply Ht | exact IH].
Qed.

Lemma concat_truthy sep t texts :
  t <> "" -> Js.truthy (String.concat sep (t :: texts)) = true.
Proof.
  intros Hne. cbn. destruct texts.
  - now apply truthy_nonempty.
  - apply truthy_append. now apply truthy_nonempty.
Qed.

Lemma translateContent_parts texts parts :
  Interleaved texts parts ->
  translateContent (Some (ContentParts parts)) =
    match texts with
    | [] => MNull
    | _ :: _ => MString (String.concat Js.LF texts)
    end.
Proof.
  intros H. unfold translateContent.
  rewrite (interleaved_text_parts _ _ H), join_present, length_map.
  destruct texts; reflexivity.
Qed.

(** Every content-part array splits into text-bearing and non-text parts. *)
Lemma every_array_is_interleaved (parts : list ResponsesContentPart) :
  exists texts, Interleaved texts parts.
Proof.
  induction parts as [| part parts [texts IH]].
  - exists []. constructor.
  - destruct (part_type part) eqn:Hk, (part_text part) as [[| c t] |] eqn:Ht.
    all: try (exists (String c t :: texts); apply Interleaved_text; [| exact IH];
              repeat split; auto; discriminate).
    all: exists texts; apply Interleaved_other; [| exact IH]; unfold non_text; auto.
Qed.

(** C7, as stated, fails: a tool-result item that answers a call does not get
    its content from its content parts; with an image only it is kept, with
    empty content, where the claim has it dropped. *)
Lemma tool_result_parts_are_not_collapsed :
  item_content image_result = ContentParts [ image_part "https://example.com/a.png" ]
  /\ Interleaved [] [ image_part "https://example.com/a.png" ]
  /\ translateInputItem image_result
     = Some {| role := ToolRole; content := MString "";
               tool_call_id := Some "call_123"; tool_calls := None |}
  /\ ~ parts_collapse_as_specified image_result.
Proof.
  assert (Hi : Interleaved [] [ image_part "https://example.com/a.png" ]).
  { apply Interleaved_other; [now left | apply Interleaved_nil]. }
  split; [reflexivity |]. split; [exact Hi |]. split; [reflexivity |].
  intros H. specialize (H [] _ eq_refl Hi). cbv in H. discriminate.
Qed.

(** C7, amended. A content-part array that interleaves parts bearing the
    texts [texts] with any number of non-text parts normalizes to those texts
    joined by a line feed, in source order, whatever the non-text parts are
    and wherever they stand, and to [null] when no part bears text; for an
    item that is not a tool result answering a call, the message has that
    joined text as content and is dropped when no part bears text. *)
Theorem content_parts_collapse_to_joined_texts :
  forall (texts : list string) (parts : list ResponsesContentPart)
         (item : ResponsesInputItem),
    Interleaved texts parts ->
    item_content item = ContentParts parts ->
    is_tool_result item = false ->
    translateContent (Some (ContentParts parts)) =
      match texts with
      | [] => MNull
      | _ :: _ => MString (String.concat Js.LF texts)
      end
    /\ translateInputItem item =
      match texts with
      | [] => None
      | _ :: _ =>
          Some {| role :=
                    match item_role item with
                    | RoleDeveloper => SystemRole
                    | RoleSystem => SystemRole
                    | RoleUser => UserRole
                    | RoleAssistant => AssistantRole
                    end;
                  content := MString (String.concat Js.LF texts);
                  tool_call_id := None; tool_calls := None |}
      end.
Proof.
  intros texts parts item Hi Hc Hk.
  pose proof (translateContent_parts _ _ Hi) as Ht.
  split; [exact Ht |].
  unfold translateInputItem. rewrite Hk, Hc, Ht.
  destruct texts as [| t texts]; [reflexivity |].
  pose proof (interleaved_nonempty _ _ Hi) as Hne.
  inversion Hne as [| ? ? Hhead _]; subst.
  cbn [content_truthy]. rewrite (concat_truthy Js.LF t texts Hhead).
  cbn [negb]. unfold canonical_role. destruct (item_role item); reflexivity.
Qed.

Lemma content_parts_collapse_to_joined_texts_witness :
  Interleaved ["First part."; "Second part."]
    [ text_part "First part."; image_part "https://example.com/a.png";
      text_part "Second part." ]
  /\ item_content mixed_item =
       ContentParts [ text_part "First part."; image_part "https://example.com/a.png";
                      text_part "Second part." ]
  /\ is_tool_result mixed_item = false
  /\ translateInputItem mixed_item =
       Some {| role := UserRole;
               content := MString ("First part." ++ Js.LF ++ "Second part.");
               tool_call_id := None; tool_calls := None |}.
Proof.
  assert (Hi : Interleaved ["First part."; "Second part."]
                 [ text_part "First part."; image_part "https://example.com/a.png";
                   text_part "Second part." ]).
  { apply Interleaved_text.
    - repeat split; [now left | discriminate].
    - apply Interleaved_other; [now left |].
      apply Interleaved_text.
      + repeat split; [now left | discriminate].
      + apply Interleaved_nil. }
  split; [exact Hi |]. split; [reflexivity |]. split; [reflexivity |].
  exact (proj2 (content_parts_collapse_to_joined_texts _ _ mixed_item
                  Hi eq_refl eq_refl)).
Defined.

(** C5, as stated, fails: a tool-result item that answers a call but has no
    [output] and keeps its text in content parts yields a tool message with
    empty content. *)
Lemma tool_result_content_may_be_empty :
  item_type parts_result = Some TypeToolResult
  /\ item_tool_call_id parts_result = Some "call_123"
  /\ translateInputItem parts_result =
       Some {| role := ToolRole; content := MString "";
               tool_call_id := Some "call_123"; tool_calls := None |}
  /\ ~ tool_result_message_as_specified parts_result.
Proof.
  repeat split.
  intros [m [Hm [_ [_ Hc]]]].
  cbv in Hm. injection Hm as <-. cbn in Hc. discriminate.
Qed.

(** C5, amended. An input item of type [tool_result] that carries a
    non-empty [tool_call_id] becomes a message of role [tool] with that
    [tool_call_id], whatever role the item declares; its content is the
    item's [output] when present, else the item's content when that is a
    string, else the empty string. *)
Theorem tool_result_item_becomes_tool_message :
  forall (item : ResponsesInputItem) (call : string),
    item_type item = Some TypeToolResult ->
    item_tool_call_id item = Some call ->
    call <> "" ->
    translateInputItem item =
      Some {| role := ToolRole;
              content := MString (tool_result_content item);
              tool_call_id := Some call;
              tool_calls := None |}.
Proof.
  intros item call Ht Hc Hne.
  unfold translateInputItem, is_tool_result, tool_result_content.
  rewrite Ht, Hc. cbn [Js.truthy_opt].
  apply truthy_nonempty in Hne. rewrite Hne.
  destruct (item_output item), (item_content item); reflexivity.
Qed.

Lemma tool_result_item_becomes_tool_message_witness :
  item_type weather_result = Some TypeToolResult
  /\ item_tool_call_id weather_result = Some "call_123"
  /\ "call_123" <> ""
  /\ translateInputItem weather_result =
       Some {| role := ToolRole; content := MString "Weather is sunny";
               tool_call_id := Some "call_123"; tool_calls := None |}.
Proof.
  assert (Hne : "call_123" <> "") by discriminate.
  split; [reflexivity |]. split; [reflexivity |]. split; [exact Hne |].
  exact (tool_result_item_becomes_tool_message weather_result "call_123"
           eq_refl eq_refl Hne).
Defined.

(** C6, as stated, fails: a string that is none of the three recognized
    literals is passed through all the same. *)
Lemma unrecognized_tool_choice_string_passes_through :
  tool_choice (translateResponsesToChat
                 (request_with_tool_choice (Some (ChoiceString "always"))))
    = Some (ChoiceLiteral "always")
  /\ tool_choice_as_specified (Some (ChoiceString "always")) = None
  /\ tool_choice (translateResponsesToChat
                    (request_with_tool_choice (Some (ChoiceString "always"))))
     <> tool_choice_as_specified (Some (ChoiceString "always")).
Proof. repeat split. discriminate. Qed.

(** C6, amended. Normalization maps [tool_choice] as follows: every
    non-empty string is passed through unchanged, the three recognized
    literals among them; an object of type [function] with a non-empty
    function name maps to the pinned-function directive; the empty string,
    every other object, a function object without a name and an absent
    [tool_choice] leave the canonical [tool_choice] unset. *)
Theorem tool_choice_mapping :
  forall request : ResponsesApiRequest,
    ToolChoiceMapping (req_tool_choice request)
      (tool_choice (translateResponsesToChat request)).
Proof.
  intros request. cbn [translateResponsesToChat tool_choice].
  unfold translateToolChoice.
  destruct (req_tool_choice request) as [[s | type [name |]] |].
  - destruct s as [| c s]; cbn [Js.truthy].
    + apply Mapping_empty_string.
    + apply Mapping_string. discriminate.
  - destruct (String.eqb_spec type "function") as [-> | Hty]; cbn [andb].
    + destruct name as [| c name]; cbn [Js.truthy].
      * apply Mapping_function_unnamed. now right.
      * apply Mapping_function. discriminate.
    + now apply Mapping_other_object.
  - apply Mapping_function_unnamed. now left.
  - apply Mapping_absent.
Qed.

(** ** Addition of JavaScript numbers that denote small integers *)

Lemma digits2_log2 (m : positive) : Zpos (digits2_pos m) = Z.log2 (Zpos m) + 1.
Proof.
  assert (H : forall p, digits2_pos p = Pos.size p).
  { induction p; cbn; congruence. }
  rewrite H. destruct m; cbn; lia.
Qed.

Lemma iter_xO (m d : positive) : Zpos (Pos.iter xO m d) = Zpos m * 2 ^ Zpos d.
Proof.
  induction d as [| d IH] using Pos.peano_ind.
  - cbn. lia.
  - rewrite Pos.iter_succ, Pos2Z.inj_succ, Z.pow_succ_r by lia.
    rewrite Pos2Z.inj_xO, IH. lia.
Qed.

Lemma shr_1_even q : 0 <= q -> shr_1 (lossless (q * 2)) = lossless q.
Proof.
  intros Hq. destruct q as [| p | p]; [reflexivity | | lia].
  replace (Zpos p * 2) with (Zpos p~0) by lia. reflexivity.
Qed.

Lemma iter_shr_exact (n : positive) :
  forall q, 0 <= q -> iter_pos shr_1 n (lossless (q * 2 ^ Zpos n)) = lossless q.
Proof.
  induction n as [n IH | n IH |]; intros q Hq; cbn [iter_pos].
  - replace (q * 2 ^ Zpos n~1) with (((q * 2 ^ Zpos n) * 2 ^ Zpos n) * 2).
    + rewrite shr_1_even, IH, IH by (try apply Z.mul_nonneg_nonneg; lia). reflexivity.
    + replace (Zpos n~1) with (Zpos n + Zpos n + 1) by lia.
      rewrite !Z.pow_add_r by lia. ring.
  - replace (q * 2 ^ Zpos n~0) with ((q * 2 ^ Zpos n) * 2 ^ Zpos n).
    + rewrite IH, IH by (try apply Z.mul_nonneg_nonneg; lia). reflexivity.
    + replace (Zpos n~0) with (Zpos n + Zpos n) by lia.
      rewrite !Z.pow_add_r by lia. ring.
  - apply shr_1_even. exact Hq.
Qed.

Lemma represents_log2 M e S :
  0 < M -> represents M e S -> 0 < S /\ Z.log2 M + e = Z.log2 S.
Proof.
  unfold represents. intros HM H. destruct (0 <=? e) eqn:He.
  - apply Z.leb_le in He. subst S. split.
    + apply Z.mul_pos_pos; [lia | apply Z.pow_pos_nonneg; lia].
    + rewrite Z.log2_mul_pow2 by lia. lia.
  - apply Z.leb_gt in He.
    assert (HS : 0 < S).
    { assert (0 < 2 ^ (- e)) by (apply Z.pow_pos_nonneg; lia). nia. }
    split; [exact HS |]. subst M. rewrite Z.log2_mul_pow2 by lia. lia.
Qed.

(** lowering the exponent *)
Lemma represents_lower M e S d :
  0 <= d -> represents M e S -> represents (M * 2 ^ d) (e - d) S.
Proof.
  unfold represents. intros Hd H.
  destruct (0 <=? e) eqn:He, (0 <=? e - d) eqn:Hed;
    rewrite ?Z.leb_le, ?Z.leb_gt in *; try lia.
  - subst S. replace e with ((e - d) + d) at 1 by lia.
    rewrite Z.pow_add_r by lia. ring.
  - subst S. replace d with (e + - (e - d)) at 1 by lia.
    rewrite Z.pow_add_r by lia. ring.
  - subst M. replace (- (e - d)) with (- e + d) by lia.
    rewrite Z.pow_add_r by lia. ring.
Qed.

(** raising the exponent of a multiple *)
Lemma represents_raise q e S n :
  0 <= n -> represents (q * 2 ^ n) e S -> represents q (e + n) S.
Proof.
  unfold represents. intros Hn H.
  assert (Hp : forall k, 0 <= k -> 0 < 2 ^ k) by (intros; apply Z.pow_pos_nonneg; lia).
  destruct (0 <=? e) eqn:He, (0 <=? e + n) eqn:Hen;
    rewrite ?Z.leb_le, ?Z.leb_gt in *; try lia.
  - subst S. rewrite Z.pow_add_r by lia. ring.
  - replace n with ((e + n) + - e) in H by lia.
    rewrite Z.pow_add_r in H by lia.
    pose proof (Hp (- e) ltac:(lia)).
    apply (Z.mul_reg_r _ _ (2 ^ (- e))); [lia |]. rewrite <- H. ring.
  - replace (- e) with (- (e + n) + n) in H by lia.
    rewrite Z.pow_add_r in H by lia.
    pose proof (Hp n Hn).
    apply (Z.mul_reg_r _ _ (2 ^ n)); [lia |]. rewrite H. ring.
Qed.

Lemma fexp_value x : fexp prec emax x = Z.max (x - 53) (-1074).
Proof. reflexivity. Qed.

Lemma binary_round_aux_exact (m : positive) (e S : Z) :
  represents (Zpos m) e S ->
  Z.log2 (Zpos m) + 1 + e - 53 = e ->
  e <= 971 ->
  binary_round_aux prec emax false (Zpos m) e loc_Exact = S754_finite false m e.
Proof.
  intros Hr Hc He.
  unfold binary_round_aux, shr_fexp.
  cbn [Zdigits2 shr_record_of_loc]. rewrite digits2_log2, fexp_value.
  assert (Hlog : -1074 <= e).
  { destruct (represents_log2 _ _ _ (Pos2Z.is_pos m) Hr) as [HS Hl].
    pose proof (Z.log2_nonneg (Zpos m)). pose proof (Z.log2_nonneg S). lia. }
  replace (Z.max (Z.log2 (Zpos m) + 1 + e - 53) (-1074) - e) with 0 by lia.
  cbn [shr shr_m loc_of_shr_record round_nearest_even Zdigits2 shr_record_of_loc].
  rewrite digits2_log2, fexp_value.
  replace (Z.max (Z.log2 (Zpos m) + 1 + e - 53) (-1074) - e) with 0 by lia.
  cbn [shr shr_m].
  assert (Hle : (e <=? emax - prec) = true) by (apply Z.leb_le; cbn; lia).
  rewrite Hle. reflexivity.
Qed.

Lemma binary_round_exact (M : positive) (e S : Z) :
  represents (Zpos M) e S -> S <= 2 ^ 53 ->
  exists m' e',
    binary_round prec emax false M e = S754_finite false m' e'
    /\ represents (Zpos m') e' S.
Proof.
  intros Hr HS.
  destruct (represents_log2 _ _ _ (Pos2Z.is_pos M) Hr) as [HSpos Hlog].
  assert (Hl53 : Z.log2 S <= 53).
  { replace 53 with (Z.log2 (2 ^ 53)) by reflexivity. apply Z.log2_le_mono. exact HS. }
  pose proof (Z.log2_nonneg S) as Hl0.
  unfold binary_round, shl_align. rewrite fexp_value, digits2_log2.
  replace (Z.max (Z.log2 (Zpos M) + 1 + e - 53) (-1074)) with (Z.log2 S - 52) by lia.
  destruct (Z.log2 S - 52 - e) as [| d | d] eqn:Hd.
  - (* no alignment, no shift *)
    exists M, e. split; [| exact Hr].
    apply (binary_round_aux_exact M e S Hr); lia.
  - (* the mantissa is too long: shift right by d *)
    assert (Hq : exists q : positive, Zpos M = Zpos q * 2 ^ Zpos d).
    { unfold represents in Hr. destruct (0 <=? e) eqn:He;
        rewrite ?Z.leb_le, ?Z.leb_gt in *.
      - assert (e = 0) by lia. subst e. rewrite Z.mul_1_r in Hr. subst S.
        assert (Z.log2 (Zpos M) = 53) by lia.
        assert (2 ^ 53 <= Zpos M).
        { rewrite <- H. apply Z.log2_spec. lia. }
        exists (4503599627370496)%positive.
        replace (Zpos d) with 1 by lia. lia.
      - destruct (Z.eq_dec (Z.log2 S) 53) as [H53 | H53].
        + assert (2 ^ 53 <= S).
          { rewrite <- H53. apply Z.log2_spec. lia. }
          assert (S = 2 ^ 53) by lia. subst S.
          exists (4503599627370496)%positive. rewrite Hr.
          replace (Zpos d) with (1 + - e) by lia.
          rewrite Z.pow_add_r by lia. lia.
        + assert (Hk : 0 <= - e - Zpos d) by lia.
          assert (Hpos : 0 < S * 2 ^ (- e - Zpos d)).
          { apply Z.mul_pos_pos; [lia | apply Z.pow_pos_nonneg; lia]. }
          destruct (S * 2 ^ (- e - Zpos d)) as [| q | q] eqn:Eq; try lia.
          exists q. rewrite Hr, <- Eq.
          replace (- e) with ((- e - Zpos d) + Zpos d) at 1 by lia.
          rewrite Z.pow_add_r by lia. ring. }
    destruct Hq as [q Hq].
    assert (Hrq : represents (Zpos q) (e + Zpos d) S).
    { apply represents_raise; [lia |]. now rewrite <- Hq. }
    exists q, (e + Zpos d). split; [| exact Hrq].
    unfold binary_round_aux, shr_fexp.
    cbn [Zdigits2 shr_record_of_loc]. rewrite digits2_log2, fexp_value.
    replace (Z.max (Z.log2 (Zpos M) + 1 + e - 53) (-1074) - e) with (Zpos d) by lia.
    cbn [shr]. fold (lossless (Zpos M)). rewrite Hq, iter_shr_exact by lia.
    cbn [lossless shr_m loc_of_shr_record round_nearest_even].
    assert (Hlq : Z.log2 (Zpos q) + Zpos d = Z.log2 (Zpos M)).
    { rewrite Hq, Z.log2_mul_pow2 by lia. lia. }
    cbn [Zdigits2 shr_record_of_loc]. rewrite digits2_log2, fexp_value.
    replace (Z.max (Z.log2 (Zpos q) + 1 + (e + Zpos d) - 53) (-1074) - (e + Zpos d))
      with 0 by lia.
    cbn [shr shr_m].
    assert (Hle : (e + Zpos d <=? emax - prec) = true) by (apply Z.leb_le; cbn; lia).
    rewrite Hle. reflexivity.
  - (* the mantissa is short: align to the left by d *)
    exists (Pos.iter xO M d), (Z.log2 S - 52).
    assert (Hrm : represents (Zpos (Pos.iter xO M d)) (Z.log2 S - 52) S).
    { rewrite iter_xO. replace (Z.log2 S - 52) with (e - Zpos d) by lia.
      apply represents_lower; [lia | exact Hr]. }
    split; [| exact Hrm].
    apply (binary_round_aux_exact _ _ S Hrm); [| lia].
    rewrite iter_xO, Z.log2_mul_pow2 by lia. lia.
Qed.

Lemma sf_integer_represents m e S :
  represents (Zpos m) e S -> sf_integer (S754_finite false m e) = Some S.
Proof.
  unfold represents, sf_integer. intros H. destruct (0 <=? e) eqn:He.
  - now subst S.
  - apply Z.leb_gt in He.
    assert (Hp : 0 < 2 ^ (- e)) by (apply Z.pow_pos_nonneg; lia).
    rewrite H, Z.mod_mul, Z.div_mul by lia. reflexivity.
Qed.

Lemma sf_integer_nonneg s m e a :
  sf_integer (S754_finite s m e) = Some a -> 0 <= a ->
  s = false /\ represents (Zpos m) e a.
Proof.
  unfold sf_integer, represents. intros H Ha.
  assert (Hp : forall k, 0 <= k -> 0 < 2 ^ k) by (intros; apply Z.pow_pos_nonneg; lia).
  destruct (0 <=? e) eqn:He.
  - apply Z.leb_le in He. pose proof (Hp e He).
    assert (Hv : 0 < Zpos m * 2 ^ e) by (apply Z.mul_pos_pos; lia).
    set (v := Zpos m * 2 ^ e) in *. injection H as <-.
    destruct s; unfold cond_Zopp in *; [exfalso; lia | auto].
  - apply Z.leb_gt in He. pose proof (Hp (- e) ltac:(lia)) as Hpe.
    destruct (Zpos m mod 2 ^ (- e) =? 0) eqn:Hm; [| discriminate].
    apply Z.eqb_eq in Hm.
    assert (Hd : Zpos m = Zpos m / 2 ^ (- e) * 2 ^ (- e)).
    { rewrite (Z.div_mod (Zpos m) (2 ^ (- e))) at 1 by lia. rewrite Hm. lia. }
    set (v := Zpos m / 2 ^ (- e)) in *. injection H as <-.
    assert (0 < v) by nia.
    destruct s; unfold cond_Zopp in *; [exfalso; lia | auto].
Qed.

Lemma represents_add M N e a b :
  represents M e a -> represents N e b -> represents (M + N) e (a + b).
Proof.
  unfold represents. destruct (0 <=? e); intros -> ->; ring.
Qed.

Lemma shl_align_represents m e e' a :
  e' <= e -> represents (Zpos m) e a ->
  represents (Zpos (fst (shl_align m e e'))) e' a.
Proof.
  intros Hle Hr. unfold shl_align.
  destruct (e' - e) as [| d | d] eqn:Hd; try lia; cbn [fst].
  - now replace e' with e by lia.
  - rewrite iter_xO. replace e' with (e - Zpos d) by lia.
    apply represents_lower; [lia | exact Hr].
Qed.

Lemma SFadd_integer_exact x y a b :
  sf_integer x = Some a -> sf_integer y = Some b ->
  0 <= a -> 0 <= b -> a + b <= 2 ^ 53 ->
  sf_integer (SFadd prec emax x y) = Some (a + b).
Proof.
  intros Hx Hy Ha Hb Hs.
  destruct x as [sx | sx | | sx mx ex]; try discriminate;
    destruct y as [sy | sy | | sy my ey]; try discriminate.
  - cbn in Hx, Hy. injection Hx as <-. injection Hy as <-.
    cbn. destruct sx, sy; reflexivity.
  - cbn in Hx. injection Hx as <-. cbn [SFadd]. now rewrite Hy.
  - cbn in Hy. injection Hy as <-. cbn [SFadd]. now rewrite Hx, Z.add_0_r.
  - destruct (sf_integer_nonneg _ _ _ _ Hx Ha) as [-> Hrx].
    destruct (sf_integer_nonneg _ _ _ _ Hy Hb) as [-> Hry].
    cbn [SFadd cond_Zopp].
    pose proof (shl_align_represents mx ex (Z.min ex ey) a ltac:(lia) Hrx) as H1.
    pose proof (shl_align_represents my ey (Z.min ex ey) b ltac:(lia) Hry) as H2.
    pose proof (represents_add _ _ _ _ _ H1 H2) as H3.
    cbn [Z.add] in H3 |- *. cbn [binary_normalize].
    destruct (binary_round_exact _ _ _ H3 Hs) as (m' & e' & -> & Hr).
    now apply sf_integer_represents.
Qed.

Lemma add_integer_exact (x y : float) (a b : Z) :
  integer_value x = Some a -> integer_value y = Some b ->
  0 <= a -> 0 <= b -> a + b <= 2 ^ 53 ->
  integer_value (x + y) = Some (a + b).
Proof.
  unfold integer_value. intros. rewrite add_spec. now apply SFadd_integer_exact.
Qed.

(** C8, as stated, fails: JavaScript adds doubles, and the sum of the counts
    2^53 and 1 is 2^53, not the exact sum. *)
Lemma large_counts_are_rounded :
  integer_value (prompt_tokens large_usage) = Some 9007199254740992
  /\ integer_value (completion_tokens large_usage) = Some 1
  /\ resp_usage (translateChatToResponses
                   (response_with (MString "Hello") (Some large_usage)) "gpt-5.2")
     = Some {| input_tokens := 9007199254740992%float;
               output_tokens := 1%float;
               total_tokens := 9007199254740992%float |}
  /\ ~ total_is_exact_sum (response_with (MString "Hello") (Some large_usage)) "gpt-5.2"
        9007199254740992 1.
Proof.
  split; [reflexivity |]. split; [reflexivity |]. split; [reflexivity |].
  intros [r [Hr Ht]]. vm_compute in Hr. injection Hr as <-.
  vm_compute in Ht. discriminate.
Qed.

(** C8, amended. A canonical usage with [prompt_tokens = p] and
    [completion_tokens = c] is projected to [input_tokens = p],
    [output_tokens = c] and a total that is the JavaScript sum of [p] and [c],
    whatever total came from upstream; when [p] and [c] are non-negative
    integers whose sum is at most 2^53, that total is exactly [p + c].
    Without canonical usage the projected response has no usage. *)
Theorem usage_total_is_recomputed :
  forall (response : ChatCompletionResponse) (model : string),
    (forall u : Usage,
        usage response = Some u ->
        resp_usage (translateChatToResponses response model) =
          Some {| input_tokens := prompt_tokens u;
                  output_tokens := completion_tokens u;
                  total_tokens :=
                    PrimFloat.add (prompt_tokens u) (completion_tokens u) |})
    /\ (forall (u : Usage) (p c : Z),
          usage response = Some u ->
          integer_value (prompt_tokens u) = Some p ->
          integer_value (completion_tokens u) = Some c ->
          0 <= p -> 0 <= c -> p + c <= 2 ^ 53 ->
          exists r,
            resp_usage (translateChatToResponses response model) = Some r
            /\ integer_value (input_tokens r) = Some p
            /\ integer_value (output_tokens r) = Some c
            /\ integer_value (total_tokens r) = Some (p + c))
    /\ (usage response = None ->
        resp_usage (translateChatToResponses response model) = None).
Proof.
  intros response model.
  assert (H : resp_usage (translateChatToResponses response model)
              = translateUsage (usage response)).
  { unfold translateChatToResponses.
    destruct (fold_left _ _ _) as [output outputText]. reflexivity. }
  split; [| split].
  - intros u Hu. rewrite H, Hu. reflexivity.
  - intros u p c Hu Hp Hc Hp0 Hc0 Hsum. rewrite H, Hu. cbn [translateUsage].
    eexists. split; [reflexivity |]. cbn [input_tokens output_tokens total_tokens].
    split; [exact Hp |]. split; [exact Hc |].
    now apply add_integer_exact.
  - intros Hu. rewrite H, Hu. reflexivity.
Qed.

Lemma usage_total_is_recomputed_witness :
  usage (response_with (MString "Hello! How can I help you?") (Some disagreeing_usage))
    = Some disagreeing_usage
  /\ integer_value (prompt_tokens disagreeing_usage) = Some 10
  /\ integer_value (completion_tokens disagreeing_usage) = Some 8
  /\ 0 <= 10 /\ 0 <= 8 /\ 10 + 8 <= 2 ^ 53
  /\ exists r,
       resp_usage
         (translateChatToResponses
            (response_with (MString "Hello! How can I help you?") (Some disagreeing_usage))
            "gpt-5.2")
       = Some r
       /\ integer_value (input_tokens r) = Some 10
       /\ integer_value (output_tokens r) = Some 8
       /\ integer_value (total_tokens r) = Some (10 + 8).
Proof.
  assert (H1 : 0 <= 10) by lia.
  assert (H2 : 0 <= 8) by lia.
  assert (H3 : 10 + 8 <= 2 ^ 53) by (vm_compute; discriminate).
  split; [reflexivity |]. split; [reflexivity |]. split; [reflexivity |].
  split; [exact H1 |]. split; [exact H2 |]. split; [exact H3 |].
  exact (proj1 (proj2 (usage_total_is_recomputed
                         (response_with (MString "Hello! How can I help you?")
                            (Some disagreeing_usage)) "gpt-5.2"))
           disagreeing_usage 10 8 eq_refl eq_refl eq_refl H1 H2 H3).
Defined.

Lemma join_texts_of (parts : list ContentPart) :
  Js.join "" (map cp_text (filter is_text parts)) = String.concat "" (texts_of parts).
Proof.
  rewrite <- join_present. f_equal.
  induction parts as [| p rest IH]; [reflexivity |].
  cbn [filter texts_of]. unfold is_text at 1.
  destruct (cp_type p), (cp_text p) eqn:Ht; cbn [map]; rewrite ?Ht, IH; reflexivity.
Qed.

Lemma concat_empty_separator (ts : list string) :
  String.concat "" ts = fold_right String.append "" ts.
Proof.
  induction ts as [| t [| t' rest] IH]; cbn in *.
  - reflexivity.
  - symmetry. clear IH. induction t; cbn; congruence.
  - now rewrite IH.
Qed.

(** C9. When the content of a canonical assistant message is an array of
    parts, projection takes as its text the [text] fields of the parts of
    type ["text"], in order, appended to one another with nothing in
    between, and ignores every other part; this text is the flattened output
    text of a response made of that one message. *)
Theorem array_content_is_concatenated_without_separator :
  forall (parts : list ContentPart) (u : option Usage) (model : string),
    extractTextContent (MParts parts) = fold_right String.append "" (texts_of parts)
    /\ resp_output_text (translateChatToResponses (response_with (MParts parts) u) model)
       = fold_right String.append "" (texts_of parts).
Proof.
  intros parts u model.
  assert (H : extractTextContent (MParts parts)
              = fold_right String.append "" (texts_of parts)).
  { cbn [extractTextContent]. now rewrite join_texts_of, concat_empty_separator. }
  split; [exact H |].
  unfold translateChatToResponses, response_with.
  cbn [choices fold_left translateChoice Chat.message content content_truthy
       tool_calls id].
  rewrite H.
  destruct (fold_right String.append "" (texts_of parts)) eqn:E; reflexivity.
Qed.

(** C10. An input item of type [tool_result] whose [tool_call_id] is absent
    or empty is not turned into a tool message: it is translated as the
    ordinary message it would be without its type.  Its role is the declared
    one (system, user and assistant as they are, developer as system), never
    tool, and it has no tool-call id; its content is its string content, or
    the texts of its content parts joined by line feeds; it is dropped when
    the string is empty or no part bears text. *)
Theorem tool_result_without_call_id_is_ordinary_message :
  forall item : ResponsesInputItem,
    item_type item = Some TypeToolResult ->
    item_tool_call_id item = None \/ item_tool_call_id item = Some "" ->
    translateInputItem item =
      translateInputItem
        {| item_role := item_role item; item_content := item_content item;
           item_type := Some TypeMessage;
           item_tool_call_id := item_tool_call_id item;
           item_output := item_output item |}
    /\ (forall s,
          item_content item = ContentString s ->
          translateInputItem item =
            match s with
            | EmptyString => None
            | String _ _ =>
                Some {| role :=
                          match item_role item with
                          | RoleDeveloper => SystemRole
                          | RoleSystem => SystemRole
                          | RoleUser => UserRole
                          | RoleAssistant => AssistantRole
                          end;
                        content := MString s;
                        tool_call_id := None; tool_calls := None |}
            end)
    /\ (forall texts parts,
          item_content item = ContentParts parts ->
          Interleaved texts parts ->
          translateInputItem item =
            match texts with
            | [] => None
            | _ :: _ =>
                Some {| role :=
                          match item_role item with
                          | RoleDeveloper => SystemRole
                          | RoleSystem => SystemRole
                          | RoleUser => UserRole
                          | RoleAssistant => AssistantRole
                          end;
                        content := MString (String.concat Js.LF texts);
                        tool_call_id := None; tool_calls := None |}
            end)
    /\ (forall m, translateInputItem item = Some m ->
                  role m <> ToolRole /\ tool_call_id m = None).
Proof.
  intros item Ht Hc.
  assert (Hg : is_tool_result item = false).
  { unfold is_tool_result. rewrite Ht. destruct Hc as [-> | ->]; reflexivity. }
  assert (He : translateInputItem item =
               if content_truthy (translateContent (Some (item_content item)))
               then Some {| role := canonical_role (item_role item);
                            content := translateContent (Some (item_content item));
                            tool_call_id := None; tool_calls := None |}
               else None).
  { unfold translateInputItem. rewrite Hg.
    destruct (content_truthy _); reflexivity. }
  split; [| split; [| split]].
  - rewrite He. unfold translateInputItem, is_tool_result. cbn.
    destruct (content_truthy _); reflexivity.
  - intros s Hs. rewrite He, Hs.
    destruct s as [| c s]; [reflexivity |]. cbn.
    destruct (item_role item); reflexivity.
  - intros texts parts Hp Hi. rewrite He, Hp, (translateContent_parts _ _ Hi).
    destruct texts as [| t texts]; [reflexivity |].
    pose proof (interleaved_nonempty _ _ Hi) as Hne.
    inversion Hne as [| ? ? Hhead _]; subst.
    cbn [content_truthy]. rewrite (concat_truthy Js.LF t texts Hhead).
    unfold canonical_role. destruct (item_role item); reflexivity.
  - intros m Hm. rewrite He in Hm.
    destruct (content_truthy _); [| discriminate].
    injection Hm as <-. cbn. split; [| reflexivity].
    destruct (item_role item); discriminate.
Qed.

Lemma tool_result_without_call_id_is_ordinary_message_witness :
  item_type orphan_result = Some TypeToolResult
  /\ (item_tool_call_id orphan_result = None \/ item_tool_call_id orphan_result = Some "")
  /\ translateInputItem orphan_result =
       Some {| role := SystemRole; content := MString "Weather is sunny";
               tool_call_id := None; tool_calls := None |}.
Proof.
  split; [reflexivity |]. split; [now left |].
  exact (proj1 (proj2 (tool_result_without_call_id_is_ordinary_message orphan_result
                         eq_refl (or_introl eq_refl)))
           "Weather is sunny" eq_refl).
Defined.

End TranslationProperties.

(** * Properties of the streaming event sequencer *)

Section SequencerProperties.
Import Types Chat Translation Handler StreamVocabulary StreamSamples.
Local Open Scope async_scope.

Lemma processToolCalls_run toolCalls outputIndex w :
  processToolCalls (Some toolCalls) outputIndex w =
    (Normal tt,
     {| w_stream := (w_stream w ++ flat_map (fragment_events outputIndex) toolCalls)%list;
        w_state := w_state w |}).
Proof.
  unfold processToolCalls. revert w.
  induction toolCalls as [| toolCall rest IH]; intros w.
  - cbn. rewrite app_nil_r. destruct w; reflexivity.
  - cbn [for_of flat_map]. unfold bind at 1 2. unfold fragment_events at 1.
    destruct (function_name toolCall) as [[| c name] |];
      destruct (function_arguments toolCall) as [[| c' args] |];
      cbn; rewrite IH; cbn; rewrite <- ?app_assoc; reflexivity.
Qed.

Lemma append_empty_r (s : string) : s ++ "" = s.
Proof. induction s; cbn; congruence. Qed.

Lemma append_assoc (s t u : string) : (s ++ t) ++ u = s ++ t ++ u.
Proof. induction s; cbn; congruence. Qed.

Lemma with_text_id (state : StreamState) :
  with_text state (outputText state) (responseId state) = state.
Proof. destruct state; reflexivity. Qed.

Lemma with_text_same (state : StreamState) :
  with_text state (outputText state ++ "") (responseId state) = state.
Proof. rewrite append_empty_r. apply with_text_id. Qed.

Lemma processChoice_effect choice w :
  let state := w_state w in
  let index := outputIndex state in
  exists r text calls closing,
    processChoice choice w =
      (r,
       {| w_stream :=
            (w_stream w ++ text ++ flat_map (fragment_events index) calls ++ closing)%list;
          w_state :=
            with_text state
              (outputText state ++ String.concat "" (deltas is_text_delta text))
              (responseId state) |})
    /\ (text = [] \/
        exists content, content <> "" /\ text = [message_of (deltaEvent content index)])
    /\ (closing = [] \/
        closing = [message_of (textDoneEvent index)]
        /\ outputText state ++ String.concat "" (deltas is_text_delta text) <> "").
Proof.
  intros state index. unfold processChoice.
  destruct choice as [i [[content toolCalls] |] reason];
    cbn [cc_delta cc_finish_reason deref delta_content delta_tool_calls].
  2:{ exists (Thrown TypeError), [], [], []. cbn.
      rewrite app_nil_r, with_text_same. destruct w; cbn. auto. }
  exists (Normal tt),
    (match content with
     | Some c => if Js.truthy c then [message_of (deltaEvent c index)] else []
     | None => []
     end),
    (match toolCalls with Some l => l | None => [] end),
    (if Js.truthy_opt reason
        && Js.truthy (outputText state ++ match content with Some c => c | None => "" end)
     then [message_of (textDoneEvent index)] else []).
  split; [| split].
  - unfold bind, ret, get_state, set_state, sendTextDeltaEvent, sendTextDoneEvent, writeSSE.
    subst state index.
    destruct content as [[| c content] |]; destruct toolCalls as [toolCalls |];
      repeat (cbn [delta_content delta_tool_calls Js.truthy w_state w_stream
                     outputIndex outputText flat_map]
              || rewrite processToolCalls_run).
    all: rewrite ?append_empty_r.
    all: destruct (Js.truthy_opt reason && Js.truthy _).
    all: cbn; rewrite ?with_text_id, <- ?app_assoc, ?app_nil_r;
      try reflexivity; try (destruct w; reflexivity).
  - destruct content as [[| c content] |]; auto.
    right. exists (String c content). split; [discriminate | reflexivity].
  - destruct (Js.truthy_opt reason) eqn:Hr; cbn [andb]; auto.
    destruct (Js.truthy (outputText state ++ _)) eqn:Ht; auto.
    right. split; [reflexivity |].
    apply truthy_nonempty.
    destruct content as [[| c content] |]; cbn in Ht |- *; exact Ht.
Qed.

(** ** Event lists *)

Lemma deltas_app kind (l l' : list SSEMessage) :
  deltas kind (l ++ l') = (deltas kind l ++ deltas kind l')%list.
Proof. unfold deltas. now rewrite filter_app, flat_map_app. Qed.

Lemma concat_empty_app (l l' : list string) :
  String.concat "" (l ++ l') = String.concat "" l ++ String.concat "" l'.
Proof.
  rewrite !concat_empty_separator.
  induction l as [| x l IH]; cbn; [reflexivity |].
  now rewrite IH, append_assoc.
Qed.

Lemma fragment_events_kinds outputIndex calls :
  existsb is_done (flat_map (fragment_events outputIndex) calls) = false
  /\ existsb is_text_done (flat_map (fragment_events outputIndex) calls) = false
  /\ filter is_text_delta (flat_map (fragment_events outputIndex) calls) = [].
Proof.
  induction calls as [| call rest [IH1 [IH2 IH3]]]; [now cbn |].
  cbn [flat_map]. rewrite !existsb_app, filter_app, IH1, IH2, IH3.
  unfold fragment_events.
  destruct (Js.truthy_opt (function_name call)),
           (function_arguments call) as [[| c args] |]; now cbn.
Qed.

Lemma has_delta_app slot (l l' : list SSEMessage) :
  has_delta slot l -> has_delta slot (l ++ l').
Proof.
  intros [d [Hin Hd]]. exists d. split; [apply in_or_app; now left | exact Hd].
Qed.

Lemma existsb_false_in (kind : SSEMessage -> bool) l m :
  existsb kind l = false -> In m l -> kind m = true -> False.
Proof.
  intros Hf Hin Hk.
  assert (He : existsb kind l = true) by (apply existsb_exists; eauto).
  congruence.
Qed.

Lemma done_follows_delta_quiet (l l' : list SSEMessage) :
  done_follows_delta l -> existsb is_text_done l' = false ->
  done_follows_delta (l ++ l').
Proof.
  intros Hl Hq pre m post Heq Hm.
  apply app_eq_app in Heq. destruct Heq as [l'' [[-> Hr] | [-> Hr]]].
  - destruct l'' as [| x l3]; cbn in Hr.
    + exfalso. apply (existsb_false_in _ _ m Hq); [rewrite <- Hr; now left | exact Hm].
    + injection Hr as <- _. now apply (Hl pre m l3).
  - exfalso. apply (existsb_false_in _ _ m Hq); [| exact Hm].
    rewrite Hr. apply in_or_app. right. now left.
Qed.

Lemma done_follows_delta_closing (l : list SSEMessage) m :
  done_follows_delta l -> has_delta (slot_of m) l ->
  done_follows_delta (l ++ [m]).
Proof.
  intros Hl Hd pre m' post Heq Hm.
  apply app_eq_app in Heq. destruct Heq as [l'' [[-> Hr] | [-> Hr]]].
  - destruct l'' as [| x l3]; cbn in Hr.
    + injection Hr as <- _. now rewrite app_nil_r in Hd.
    + injection Hr as <- _. now apply (Hl pre m' l3).
  - destruct l'' as [| x l3]; cbn in Hr.
    + injection Hr as <- _. now rewrite app_nil_r.
    + injection Hr as _ Hr. now destruct l3.
Qed.

(** ** Loops and handlers *)

Lemma for_of_relates {A} (R : World -> World -> Prop) (body : A -> Async unit) :
  (forall w, R w w) ->
  (forall a b c, R a b -> R b c -> R a c) ->
  (forall x w, R w (snd (body x w))) ->
  forall xs w, R w (snd (for_of xs body w)).
Proof.
  intros Hrefl Htrans Hbody xs.
  induction xs as [| x rest IH]; intros w; cbn; [apply Hrefl |].
  unfold bind. specialize (Hbody x w).
  destruct (body x w) as [[[] | e] w']; cbn in *; [| exact Hbody].
  eapply Htrans; [exact Hbody | apply IH].
Qed.

Lemma for_of_normal {A} (body : A -> Async unit) :
  (forall x w, fst (body x w) = Normal tt) ->
  forall xs w, fst (for_of xs body w) = Normal tt.
Proof.
  intros Hbody xs. induction xs as [| x rest IH]; intros w; cbn; [reflexivity |].
  unfold bind. specialize (Hbody x w).
  destruct (body x w) as [[[] | e] w']; cbn in *; [apply IH | discriminate].
Qed.

Lemma processStreamChunk_normal rawEvent w :
  fst (processStreamChunk rawEvent w) = Normal tt.
Proof.
  unfold processStreamChunk, try_catch.
  match goal with |- context [match ?b with _ => _ end] => destruct b as [[[] | e] w'] end;
    reflexivity.
Qed.

Lemma processStreamChunk_relates (R : World -> World -> Prop) :
  (forall w, R w w) ->
  (forall a b c, R a b -> R b c -> R a c) ->
  (forall w id,
      R w {| w_stream := w_stream w;
             w_state := with_text (w_state w) (outputText (w_state w)) id |}) ->
  (forall choice w, R w (snd (processChoice choice w))) ->
  forall rawEvent w, R w (snd (processStreamChunk rawEvent w)).
Proof.
  intros Hrefl Htrans Hid Hchoice [[| [id choices]]] w;
    unfold processStreamChunk, try_catch; cbn [data JSON_parse].
  - cbn. apply Hrefl.
  - unfold bind at 1. cbn [ret chunk_id chunk_choices].
    assert (Hloop : forall w0,
               R w0 (snd (match (choices0 <- deref choices;; for_of choices0 processChoice) w0
                          with
                          | (Normal a, w') => (Normal a, w')
                          | (Thrown e, w') => ret tt w'
                          end))).
    { intros w0. unfold bind. destruct choices as [choices |]; cbn.
      - pose proof (for_of_relates R processChoice Hrefl Htrans Hchoice choices w0) as H.
        destruct (for_of choices processChoice w0) as [[[] | e] w']; exact H.
      - apply Hrefl. }
    destruct id as [[| c id] |]; cbn [Js.truthy]; unfold bind at 1;
      cbn [ret get_state set_state bind]; try apply Hloop.
    eapply Htrans; [apply (Hid w (String c id)) |].
    unfold bind at 1. cbn [set_state].
    apply Hloop.
Qed.

(** ** The loop invariant and the growth of the stream *)

Lemma advances_refl w : advances w w.
Proof.
  exists []. cbn. rewrite app_nil_r, append_empty_r. auto.
Qed.

Lemma advances_trans a b c : advances a b -> advances b c -> advances a c.
Proof.
  intros [e1 (Hs1 & Ht1 & Hm1 & Hi1 & Hd1)] [e2 (Hs2 & Ht2 & Hm2 & Hi2 & Hd2)].
  exists (e1 ++ e2)%list. repeat split.
  - now rewrite Hs2, Hs1, app_assoc.
  - now rewrite Ht2, Ht1, deltas_app, concat_empty_app, append_assoc.
  - congruence.
  - congruence.
  - now rewrite existsb_app, Hd1, Hd2.
Qed.

Lemma advances_adopt w id :
  advances w {| w_stream := w_stream w;
                w_state := with_text (w_state w) (outputText (w_state w)) id |}.
Proof.
  exists []. cbn. rewrite app_nil_r, append_empty_r. auto.
Qed.

Lemma processChoice_advances choice w : advances w (snd (processChoice choice w)).
Proof.
  destruct (processChoice_effect choice w)
    as (r & text & calls & closing & Heq & Htext & Hclosing).
  rewrite Heq. cbn [snd].
  destruct (fragment_events_kinds (outputIndex (w_state w)) calls) as (Hf1 & _ & Hf3).
  exists (text ++ flat_map (fragment_events (outputIndex (w_state w))) calls ++ closing)%list.
  cbn [w_stream w_state with_text outputText state_model outputIndex].
  repeat split.
  - rewrite !deltas_app. unfold deltas at 2 3. rewrite Hf3.
    destruct Hclosing as [-> | [-> _]]; cbn; now rewrite app_nil_r.
  - rewrite !existsb_app, Hf1.
    destruct Htext as [-> | [content [_ ->]]];
      destruct Hclosing as [-> | [-> _]]; reflexivity.
Qed.

Lemma processChoice_invariant choice w :
  stream_invariant w -> stream_invariant (snd (processChoice choice w)).
Proof.
  destruct (processChoice_effect choice w)
    as (r & text & calls & closing & Heq & Htext & Hclosing).
  rewrite Heq. cbn [snd]. clear Heq.
  set (index := outputIndex (w_state w)) in *.
  destruct (fragment_events_kinds index calls) as (Hf1 & Hf2 & _).
  intros (Hord & Hnone & Hhas).
  assert (Hquiet : existsb is_text_done text = false /\ existsb is_done text = false).
  { destruct Htext as [-> | [content [_ ->]]]; now cbn. }
  destruct Hquiet as [Hq1 Hq2].
  assert (Hopen :
            outputText (w_state w) ++ String.concat "" (deltas is_text_delta text) <> "" ->
            has_delta (Some index, Some 0)
              ((w_stream w ++ text) ++ flat_map (fragment_events index) calls)).
  { intros Hne. apply has_delta_app.
    destruct Htext as [-> | [content [_ ->]]].
    - cbn in Hne. rewrite append_empty_r in Hne. rewrite app_nil_r. now apply Hhas.
    - exists (message_of (deltaEvent content index)). repeat split.
      apply in_or_app. right. now left. }
  unfold stream_invariant.
  cbn [w_stream w_state with_text outputText outputIndex].
  rewrite !app_assoc.
  split; [| split].
  - assert (Hmid : done_follows_delta
                     ((w_stream w ++ text) ++ flat_map (fragment_events index) calls)).
    { apply done_follows_delta_quiet; [| exact Hf2].
      now apply done_follows_delta_quiet. }
    destruct Hclosing as [-> | [-> Hne]].
    + now rewrite app_nil_r.
    + apply done_follows_delta_closing; [exact Hmid |]. now apply Hopen.
  - rewrite !existsb_app, Hnone, Hq2, Hf1.
    destruct Hclosing as [-> | [-> _]]; reflexivity.
  - intros Hne. apply has_delta_app. now apply Hopen.
Qed.

Lemma processStreamChunk_advances rawEvent w :
  advances w (snd (processStreamChunk rawEvent w)).
Proof.
  apply processStreamChunk_relates.
  - apply advances_refl.
  - apply advances_trans.
  - apply advances_adopt.
  - apply processChoice_advances.
Qed.

Lemma processStreamChunk_invariant rawEvent w :
  stream_invariant w -> stream_invariant (snd (processStreamChunk rawEvent w)).
Proof.
  apply (processStreamChunk_relates (fun a b => stream_invariant a -> stream_invariant b));
    auto.
  apply processChoice_invariant.
Qed.

(** The stream callback always runs to its end: it writes the created event,
    then events that keep the invariant, then the terminal done event. *)
Lemma streamCallback_shape model t0 t1 t2 response :
  exists events state,
    streamCallback model t0 t1 t2 response =
      (Normal tt,
       {| w_stream := (events ++ [message_of (doneEvent state t2)])%list;
          w_state := state |})
    /\ stream_invariant {| w_stream := events; w_state := state |}.
Proof.
  unfold streamCallback.
  set (w1 := {| w_stream := [message_of (createdEvent (createStreamState t0 model) t1)];
                w_state := createStreamState t0 model |}).
  assert (H1 : stream_invariant w1).
  { unfold stream_invariant, w1. cbn. repeat split.
    - intros pre m post Heq Hm.
      destruct pre as [| x [| y pre]]; cbn in Heq; try discriminate.
      injection Heq as <- _. discriminate.
    - intros Hne. now contradiction Hne. }
  pose proof (for_of_relates (fun a b => stream_invariant a -> stream_invariant b)
                processStreamChunk (fun _ H => H) (fun _ _ _ Hab Hbc H => Hbc (Hab H))
                processStreamChunk_invariant response w1 H1) as Hinv.
  pose proof (for_of_normal processStreamChunk processStreamChunk_normal response w1)
    as Hnormal.
  change ((sendCreatedEvent t1;; for_of response processStreamChunk;; sendDoneEvent t2)
            {| w_stream := []; w_state := createStreamState t0 model |})
    with (let (c, w') := for_of response processStreamChunk w1 in
          match c with
          | Normal _ => sendDoneEvent t2 w'
          | Thrown e => (Thrown e, w')
          end).
  destruct (for_of response processStreamChunk w1) as [[[] | e] [events state]];
    cbn in Hnormal; [| discriminate].
  exists events, state. split; [reflexivity | exact Hinv].
Qed.

Lemma for_of_skip {A} (body : A -> Async unit) (x : A) :
  (forall w, body x w = (Normal tt, w)) ->
  forall pre rest w, for_of (pre ++ x :: rest) body w = for_of (pre ++ rest) body w.
Proof.
  intros Hx pre rest. induction pre as [| y pre IH]; intros w; cbn.
  - unfold bind. now rewrite Hx.
  - unfold bind. destruct (body y w) as [[[] | e] w']; [apply IH | reflexivity].
Qed.

(** ** The claims about the sequencer *)

(** C1. Fed the two chunks "Hello" and " world", the second with a finish
    reason, the sequencer emits exactly, in this order, the created event,
    a text delta "Hello", a text delta " world", the text-done event and the
    terminal done event, whose accumulated text is "Hello world"; the done
    event bears the last non-empty id seen in a chunk, or else the local
    placeholder. *)
Theorem two_chunks_yield_five_events :
  forall (model : string) (t0 t1 t2 : Z) (id1 id2 : option string) (reason : string),
    reason <> "" ->
    streamCallback model t0 t1 t2
      [ text_chunk id1 "Hello" None; text_chunk id2 " world" (Some reason) ]
    = (Normal tt,
       {| w_stream :=
            [ {| sse_event := "response.created";
                 sse_data :=
                   {| ev_type := "response.created";
                      ev_delta := None; ev_item := None;
                      ev_output_index := None; ev_content_index := None;
                      ev_response :=
                        Some {| pr_id := Some ("resp_" ++ Js.number_to_string t0);
                                pr_object := Some "response";
                                pr_created_at := Some (t1 / 1000);
                                pr_model := Some model;
                                pr_output := Some [];
                                pr_output_text := None;
                                pr_usage := None;
                                pr_status := Some InProgress |} |} |};
              {| sse_event := "response.output_text.delta";
                 sse_data :=
                   {| ev_type := "response.output_text.delta";
                      ev_delta := Some "Hello"; ev_item := None;
                      ev_output_index := Some 0; ev_content_index := Some 0;
                      ev_response := None |} |};
              {| sse_event := "response.output_text.delta";
                 sse_data :=
                   {| ev_type := "response.output_text.delta";
                      ev_delta := Some " world"; ev_item := None;
                      ev_output_index := Some 0; ev_content_index := Some 0;
                      ev_response := None |} |};
              {| sse_event := "response.output_text.done";
                 sse_data :=
                   {| ev_type := "response.output_text.done";
                      ev_delta := None; ev_item := None;
                      ev_output_index := Some 0; ev_content_index := Some 0;
                      ev_response := None |} |};
              {| sse_event := "response.done";
                 sse_data :=
                   {| ev_type := "response.done";
                      ev_delta := None; ev_item := None;
                      ev_output_index := None; ev_content_index := None;
                      ev_response :=
                        Some {| pr_id :=
                                  Some (adopt id2
                                          (adopt id1 ("resp_" ++ Js.number_to_string t0)));
                                pr_object := Some "response";
                                pr_created_at := Some (t2 / 1000);
                                pr_model := Some model;
                                pr_output := None;
                                pr_output_text := Some "Hello world";
                                pr_usage := None;
                                pr_status := Some Completed |} |} |} ];
          w_state :=
            {| outputText := "Hello world";
               responseId := adopt id2 (adopt id1 ("resp_" ++ Js.number_to_string t0));
               state_model := model;
               outputIndex := 0 |} |}).
Proof.
  intros model t0 t1 t2 id1 id2 reason Hreason.
  destruct reason as [| c reason]; [contradiction |].
  destruct id1 as [[| c1 id1] |], id2 as [[| c2 id2] |]; reflexivity.
Qed.

Lemma two_chunks_yield_five_events_witness :
  "stop" <> ""
  /\ map (fun m => (sse_event m, ev_delta (sse_data m),
                    match ev_response (sse_data m) with
                    | Some r => pr_output_text r
                    | None => None
                    end))
       (w_stream
          (snd (streamCallback "gpt-5.2" 1700000000123 1700000000456 1700000000999
                  [ text_chunk (Some "chatcmpl-123") "Hello" None;
                    text_chunk (Some "chatcmpl-123") " world" (Some "stop") ])))
     = [ ("response.created", None, None);
         ("response.output_text.delta", Some "Hello", None);
         ("response.output_text.delta", Some " world", None);
         ("response.output_text.done", None, None);
         ("response.done", None, Some "Hello world") ].
Proof.
  assert (Hne : "stop" <> "") by discriminate.
  split; [exact Hne |].
  rewrite (two_chunks_yield_five_events "gpt-5.2" 1700000000123 1700000000456
             1700000000999 (Some "chatcmpl-123") (Some "chatcmpl-123") "stop" Hne).
  reflexivity.
Defined.

(** C2, as stated, fails: two fragments of the same tool-call index that both
    carry the function name yield two start events for one index. *)
Lemma repeated_name_starts_twice :
  map tc_index [weather_call; weather_call_again] = [0; 0]
  /\ filter is_call_start
       (emitted (processToolCalls (Some [weather_call; weather_call_again]) 0)
          (createStreamState 1700000000123 "gpt-5.2"))
     = [ message_of (funcStartEvent weather_call 0);
         message_of (funcStartEvent weather_call_again 0) ]
  /\ ~ start_once_per_index [weather_call; weather_call_again].
Proof.
  split; [reflexivity |]. split; [reflexivity |].
  intros H. specialize (H 0 (createStreamState 1700000000123 "gpt-5.2")).
  vm_compute in H. discriminate.
Qed.

Lemma fragment_starts outputIndex toolCalls :
  filter is_call_start (flat_map (fragment_events outputIndex) toolCalls)
  = map (fun toolCall => message_of (funcStartEvent toolCall outputIndex))
      (filter (fun toolCall => Js.truthy_opt (function_name toolCall)) toolCalls).
Proof.
  induction toolCalls as [| toolCall rest IH]; [reflexivity |].
  cbn [flat_map filter]. rewrite filter_app, IH. unfold fragment_events.
  destruct (Js.truthy_opt (function_name toolCall)),
           (function_arguments toolCall) as [[| c args] |]; reflexivity.
Qed.

Lemma fragment_arguments outputIndex toolCalls :
  deltas is_args_delta (flat_map (fragment_events outputIndex) toolCalls)
  = flat_map
      (fun toolCall =>
         match function_arguments toolCall with
         | Some args => if Js.truthy args then [args] else []
         | None => []
         end)
      toolCalls.
Proof.
  induction toolCalls as [| toolCall rest IH]; [reflexivity |].
  cbn [flat_map]. rewrite deltas_app, IH. f_equal. unfold fragment_events.
  destruct (Js.truthy_opt (function_name toolCall)),
           (function_arguments toolCall) as [[| c args] |]; reflexivity.
Qed.

Lemma fragment_chunk_run toolCall w :
  processStreamChunk (fragment_chunk toolCall) w =
    (Normal tt,
     {| w_stream := (w_stream w ++ fragment_events (outputIndex (w_state w)) toolCall)%list;
        w_state := with_text (w_state w) (outputText (w_state w)) "chatcmpl-456" |}).
Proof.
  unfold processStreamChunk, try_catch, fragment_chunk, processChoice.
  unfold bind, ret, deref, get_state, set_state, JSON_parse.
  cbn -[processToolCalls fragment_events].
  unfold bind, ret. cbn -[processToolCalls fragment_events].
  rewrite processToolCalls_run.
  cbn -[fragment_events]. now rewrite app_nil_r.
Qed.

Lemma fragment_chunks_run toolCalls :
  forall w,
  exists id,
    for_of (map fragment_chunk toolCalls) processStreamChunk w =
      (Normal tt,
       {| w_stream :=
            (w_stream w ++ flat_map (fragment_events (outputIndex (w_state w))) toolCalls)%list;
          w_state := with_text (w_state w) (outputText (w_state w)) id |}).
Proof.
  induction toolCalls as [| toolCall rest IH]; intros w.
  - exists (responseId (w_state w)). cbn. rewrite app_nil_r, with_text_id.
    destruct w; reflexivity.
  - cbn [map for_of flat_map]. unfold bind. rewrite fragment_chunk_run.
    destruct (IH {| w_stream :=
                      (w_stream w ++ fragment_events (outputIndex (w_state w)) toolCall)%list;
                    w_state := with_text (w_state w) (outputText (w_state w)) "chatcmpl-456" |})
      as [id ->].
    exists id. cbn. now rewrite app_assoc.
Qed.

(** C2, amended. For every array of tool-call fragments the sequencer emits,
    fragment by fragment and whatever the fragments' indices, a
    function-call start event for each fragment that carries a non-empty
    function name and an argument-delta event for each fragment that
    carries non-empty arguments, the argument increments in fragment order;
    so does a stream that brings the fragments one per chunk, between its
    created and its done event.  In particular the fragments [{index:0, id:"c1", name:"get_weather"}],
    [{index:0, arguments:'{"loc":'}], [{index:0, arguments:'"NYC"}'}], one
    per chunk, yield exactly one start event, with name "get_weather" and
    call id "c1", and two argument-delta events whose increments concatenate
    to [{"loc":"NYC"}]. *)
Theorem tool_call_fragments_emit_start_and_deltas :
  forall (toolCalls : list ToolCallDelta) (outputIndex : Z) (state : StreamState)
         (model : string) (t0 t1 t2 : Z),
    let emitted_here := emitted (processToolCalls (Some toolCalls) outputIndex) state in
    let events :=
      w_stream
        (snd (streamCallback model t0 t1 t2
                [ fragment_chunk weather_call;
                  fragment_chunk (arguments_fragment args_first);
                  fragment_chunk (arguments_fragment args_second) ])) in
    emitted_here = flat_map (fragment_events outputIndex) toolCalls
    /\ (exists final,
          streamCallback model t0 t1 t2 (map fragment_chunk toolCalls) =
            (Normal tt,
             {| w_stream :=
                  (message_of (createdEvent (createStreamState t0 model) t1)
                     :: flat_map (fragment_events 0) toolCalls
                     ++ [message_of (doneEvent final t2)])%list;
                w_state := final |}))
    /\ filter is_call_start emitted_here
       = map (fun toolCall => message_of (funcStartEvent toolCall outputIndex))
           (filter (fun toolCall => Js.truthy_opt (function_name toolCall)) toolCalls)
    /\ deltas is_args_delta emitted_here
       = flat_map
           (fun toolCall =>
              match function_arguments toolCall with
              | Some args => if Js.truthy args then [args] else []
              | None => []
              end)
           toolCalls
    /\ map (fun m => ev_item (sse_data m)) (filter is_call_start events)
       = [ Some {| out_id := "fc_c1";
                   out_type := ItemFunctionCall;
                   out_role_assistant := false;
                   out_status := Some ItemInProgress;
                   out_content := None;
                   out_name := Some "get_weather";
                   out_arguments := None;
                   out_call_id := Some "c1" |} ]
    /\ filter is_args_delta events
       = [ message_of (argsDeltaEvent args_first 0);
           message_of (argsDeltaEvent args_second 0) ]
    /\ String.concat "" (deltas is_args_delta events) = args_whole
    /\ map sse_event events
       = [ "response.created";
           "response.function_call_arguments.start";
           "response.function_call_arguments.delta";
           "response.function_call_arguments.delta";
           "response.done" ].
Proof.
  intros toolCalls outputIndex state model t0 t1 t2 emitted_here events.
  assert (He : emitted_here = flat_map (fragment_events outputIndex) toolCalls).
  { unfold emitted_here, emitted. rewrite processToolCalls_run. reflexivity. }
  split; [exact He |].
  split.
  { unfold streamCallback.
    destruct (fragment_chunks_run toolCalls
                {| w_stream := [message_of (createdEvent (createStreamState t0 model) t1)];
                   w_state := createStreamState t0 model |}) as [id Hrun].
    exists (with_text (createStreamState t0 model) "" id).
    unfold bind at 1. unfold sendCreatedEvent at 1. unfold bind at 1.
    cbn [get_state writeSSE w_stream w_state app]. unfold bind at 1.
    unfold message_of in Hrun. cbn [ev_type createdEvent] in Hrun.
    rewrite Hrun. reflexivity. }
  split; [rewrite He; apply fragment_starts |].
  split; [rewrite He; apply fragment_arguments |].
  repeat split.
Qed.

(** C3. For every sequence of incoming records the stream callback runs to
    its end, every text-done event it emits comes after a text-delta event
    of the same output slot, and the terminal done event is the last event
    of the stream and the only one of its kind. *)
Theorem events_are_emitted_in_order :
  forall (model : string) (t0 t1 t2 : Z) (response : list RawEvent),
    let outcome := streamCallback model t0 t1 t2 response in
    fst outcome = Normal tt
    /\ done_follows_delta (w_stream (snd outcome))
    /\ terminal_done_last (w_stream (snd outcome)).
Proof.
  intros model t0 t1 t2 response outcome. subst outcome.
  destruct (streamCallback_shape model t0 t1 t2 response)
    as (events & state & -> & Hord & Hnone & _).
  cbn [fst snd w_stream] in *.
  split; [reflexivity |]. split.
  - now apply done_follows_delta_quiet.
  - exists events, (message_of (doneEvent state t2)). auto.
Qed.

(** C4, as stated, fails: a record that parses but whose second choice has no
    delta is not a valid chunk, yet the text delta of its first choice is
    emitted and its id and text are taken into the state. *)
Lemma truncated_record_is_not_discarded :
  decodable (data truncated_record) = false
  /\ processStreamChunk truncated_record fresh_world
     = (Normal tt,
        {| w_stream := [ message_of (deltaEvent "Hi" 0) ];
           w_state := with_text (w_state fresh_world) "Hi" "chatcmpl-123" |})
  /\ ~ discarded truncated_record fresh_world.
Proof.
  split; [reflexivity |]. split; [reflexivity |].
  unfold discarded. intros H. vm_compute in H. discriminate.
Qed.

End SequencerProperties.

(** * Further properties of the request normalizer *)

Section NormalizerCoverage.
Import Types Chat Translation Vocabulary Samples TranslationVocabulary.

Lemma fold_messages (items : list ResponsesInputItem) :
  forall acc,
    fold_left
      (fun messages item =>
         match translateInputItem item with
         | Some message => (messages ++ [message])%list
         | None => messages
         end)
      items acc
    = (acc ++ surviving items)%list.
Proof.
  induction items as [| item rest IH]; intros acc; cbn [fold_left surviving flat_map].
  - now rewrite app_nil_r.
  - rewrite IH. fold (surviving rest).
    destruct (translateInputItem item); cbn [app]; [| reflexivity].
    now rewrite <- app_assoc.
Qed.

Lemma messages_of_request (request : ResponsesApiRequest) :
  messages (translateResponsesToChat request)
  = (instructions_messages request
     ++ match req_input request with
        | InputString s => [user_message s]
        | InputItems items => surviving items
        end)%list.
Proof.
  cbn [translateResponsesToChat messages]. unfold instructions_messages.
  destruct (req_input request) as [s | items]; [reflexivity |].
  apply fold_messages.
Qed.

Lemma surviving_length (items : list ResponsesInputItem) :
  (length (surviving items) <= length items)%nat.
Proof.
  induction items as [| item rest IH]; cbn [surviving flat_map length]; [lia |].
  fold (surviving rest). rewrite length_app.
  destruct (translateInputItem item); cbn [length]; lia.
Qed.

Lemma translateContent_text (c : option ResponsesContent) :
  translateContent c = MNull
  \/ exists s, s <> "" /\ translateContent c = MString s.
Proof.
  destruct c as [[s | parts] |]; [| | now left].
  - cbn. destruct s as [| a s]; [now left |].
    right. exists (String a s). split; [discriminate | reflexivity].
  - destruct (every_array_is_interleaved parts) as [texts Hi].
    rewrite (translateContent_parts _ _ Hi).
    destruct texts as [| t texts]; [now left |].
    right. exists (String.concat Js.LF (t :: texts)). split; [| reflexivity].
    apply truthy_nonempty, concat_truthy.
    pose proof (interleaved_nonempty _ _ Hi) as Hne. now inversion Hne.
Qed.

Lemma translateInputItem_cases (item : ResponsesInputItem) (m : Message) :
  translateInputItem item = Some m ->
  (is_tool_result item = true
   /\ role m = ToolRole
   /\ (exists id, id <> "" /\ tool_call_id m = Some id /\ item_tool_call_id item = Some id)
   /\ tool_calls m = None)
  \/ (is_tool_result item = false
      /\ role m = canonical_role (item_role item)
      /\ tool_call_id m = None
      /\ tool_calls m = None
      /\ exists s, s <> "" /\ content m = MString s).
Proof.
  unfold translateInputItem. destruct (is_tool_result item) eqn:Hk.
  - intros Hm. injection Hm as <-. left. cbn. repeat split.
    unfold is_tool_result in Hk.
    destruct (item_type item) as [[|] |]; try discriminate.
    destruct (item_tool_call_id item) as [id |]; [| discriminate].
    exists id. repeat split. now apply truthy_nonempty.
  - destruct (translateContent_text (Some (item_content item))) as [-> | [s [Hs ->]]];
      cbn [content_truthy negb].
    + discriminate.
    + apply truthy_nonempty in Hs. rewrite Hs. cbn [negb].
      intros Hm. injection Hm as <-. right. cbn. repeat split.
      exists s. split; [now apply truthy_nonempty | reflexivity].
Qed.

(** For a request whose input is a sequence of items, the canonical messages
    are the system message of the instructions, if any, followed by the
    translations of the items that are not dropped, in source order; there are
    at most one more messages than items. *)
Theorem messages_follow_items :
  forall (request : ResponsesApiRequest) (items : list ResponsesInputItem),
    req_input request = InputItems items ->
    messages (translateResponsesToChat request)
      = (instructions_messages request ++ surviving items)%list
    /\ (length (messages (translateResponsesToChat request)) <= length items + 1)%nat.
Proof.
  intros request items Hin.
  rewrite messages_of_request, Hin. split; [reflexivity |].
  rewrite length_app. pose proof (surviving_length items).
  unfold instructions_messages.
  destruct (req_instructions request) as [[| c i] |]; cbn [Js.truthy length]; lia.
Qed.

Lemma messages_follow_items_witness :
  req_input (request_of (Some "Be concise.")
               (InputItems [hello_item; image_only_item; hello_item]))
    = InputItems [hello_item; image_only_item; hello_item]
  /\ messages (translateResponsesToChat
                 (request_of (Some "Be concise.")
                    (InputItems [hello_item; image_only_item; hello_item])))
     = [ system_message "Be concise."; user_message "Hello!"; user_message "Hello!" ].
Proof.
  split; [reflexivity |].
  exact (proj1 (messages_follow_items
                  (request_of (Some "Be concise.")
                     (InputItems [hello_item; image_only_item; hello_item]))
                  [hello_item; image_only_item; hello_item] eq_refl)).
Defined.

(** Non-empty instructions become the first canonical message, of role system
    and with the instructions as content, whatever the input is. *)
Theorem instructions_become_first_message :
  forall (request : ResponsesApiRequest) (instructions : string),
    req_instructions request = Some instructions ->
    instructions <> "" ->
    exists rest,
      messages (translateResponsesToChat request) = system_message instructions :: rest.
Proof.
  intros request instructions Hi Hne.
  rewrite messages_of_request. unfold instructions_messages. rewrite Hi.
  apply truthy_nonempty in Hne. rewrite Hne. cbn [app]. eauto.
Qed.

Lemma instructions_become_first_message_witness :
  req_instructions (request_of (Some "Be concise.") (InputItems [hello_item]))
    = Some "Be concise."
  /\ "Be concise." <> ""
  /\ exists rest,
       messages (translateResponsesToChat
                   (request_of (Some "Be concise.") (InputItems [hello_item])))
       = system_message "Be concise." :: rest.
Proof.
  assert (Hne : "Be concise." <> "") by discriminate.
  split; [reflexivity |]. split; [exact Hne |].
  exact (instructions_become_first_message
           (request_of (Some "Be concise.") (InputItems [hello_item]))
           "Be concise." eq_refl Hne).
Defined.

(** A plain-text input always yields one user message with the input
    verbatim, after the system message if any, even when the input is the
    empty string; an input item whose content is the empty string is dropped
    unless it is a tool result. *)
Theorem plain_text_input_is_never_dropped :
  forall (request : ResponsesApiRequest) (input : string) (item : ResponsesInputItem),
    req_input request = InputString input ->
    item_content item = ContentString "" ->
    is_tool_result item = false ->
    messages (translateResponsesToChat request)
      = (instructions_messages request ++ [user_message input])%list
    /\ translateInputItem item = None.
Proof.
  intros request input item Hin Hc Hk. split.
  - now rewrite messages_of_request, Hin.
  - unfold translateInputItem. rewrite Hk, Hc. reflexivity.
Qed.

Lemma plain_text_input_is_never_dropped_witness :
  req_input (request_of None (InputString "")) = InputString ""
  /\ item_content empty_string_item = ContentString ""
  /\ is_tool_result empty_string_item = false
  /\ messages (translateResponsesToChat (request_of None (InputString "")))
     = [user_message ""]
  /\ translateInputItem empty_string_item = None.
Proof.
  split; [reflexivity |]. split; [reflexivity |]. split; [reflexivity |].
  exact (plain_text_input_is_never_dropped (request_of None (InputString "")) ""
           empty_string_item eq_refl eq_refl eq_refl).
Defined.

Lemma surviving_nil (items : list ResponsesInputItem) :
  surviving items = [] <-> Forall (fun item => translateInputItem item = None) items.
Proof.
  induction items as [| item rest IH]; cbn [surviving flat_map].
  - split; auto.
  - fold (surviving rest). split.
    + intros H. apply app_eq_nil in H. destruct H as [H1 H2].
      constructor; [| now apply IH].
      destruct (translateInputItem item); [discriminate | reflexivity].
    + intros H. inversion H as [| ? ? H1 H2]; subst.
      rewrite H1. cbn [app]. now apply IH.
Qed.

(** For a request whose input is a sequence of items, the canonical message
    sequence is empty exactly when the instructions are absent or empty and
    every item is dropped. *)
Theorem messages_empty_when_all_items_dropped :
  forall (request : ResponsesApiRequest) (items : list ResponsesInputItem),
    req_input request = InputItems items ->
    (messages (translateResponsesToChat request) = []
     <-> instructions_messages request = []
         /\ Forall (fun item => translateInputItem item = None) items).
Proof.
  intros request items Hin. rewrite messages_of_request, Hin.
  pose proof (surviving_nil items) as Hs.
  split.
  - intros H. apply app_eq_nil in H. destruct H as [H1 H2]. split; [exact H1 | now apply Hs].
  - intros [H1 H2]. rewrite H1. cbn [app]. now apply Hs.
Qed.

Lemma messages_empty_when_all_items_dropped_witness :
  req_input (request_of (Some "") (InputItems [empty_string_item; image_only_item]))
    = InputItems [empty_string_item; image_only_item]
  /\ messages (translateResponsesToChat
                 (request_of (Some "") (InputItems [empty_string_item; image_only_item])))
     = [].
Proof.
  split; [reflexivity |].
  apply (proj2 (messages_empty_when_all_items_dropped
                  (request_of (Some "") (InputItems [empty_string_item; image_only_item]))
                  [empty_string_item; image_only_item] eq_refl)).
  split; [reflexivity |]. repeat constructor.
Defined.

(** An input item that is not a tool result, when it is kept, becomes a
    message whose content is a non-empty string, never an array and never
    empty, whose role is system for a declared system or developer, user for
    user and assistant for assistant, never tool, and which has no tool-call
    id. *)
Theorem regular_message_has_text_content :
  forall (item : ResponsesInputItem) (m : Message),
    is_tool_result item = false ->
    translateInputItem item = Some m ->
    (exists s, s <> "" /\ content m = MString s)
    /\ role m = match item_role item with
                | RoleDeveloper => SystemRole
                | RoleSystem => SystemRole
                | RoleUser => UserRole
                | RoleAssistant => AssistantRole
                end
    /\ role m <> ToolRole
    /\ tool_call_id m = None.
Proof.
  intros item m Hk Hm.
  destruct (translateInputItem_cases item m Hm)
    as [[Hk' _] | (_ & Hr & Hid & _ & Hs)]; [congruence |].
  split; [exact Hs |]. split; [| split; [| exact Hid]].
  - rewrite Hr. destruct (item_role item); reflexivity.
  - rewrite Hr. destruct (item_role item); discriminate.
Qed.

Lemma regular_message_has_text_content_witness :
  is_tool_result mixed_item = false
  /\ translateInputItem mixed_item
     = Some {| role := UserRole;
               content := MString ("First part." ++ Js.LF ++ "Second part.");
               tool_call_id := None; tool_calls := None |}
  /\ role {| role := UserRole;
             content := MString ("First part." ++ Js.LF ++ "Second part.");
             tool_call_id := None; tool_calls := None |} <> ToolRole.
Proof.
  split; [reflexivity |]. split; [reflexivity |].
  exact (proj1 (proj2 (proj2 (regular_message_has_text_content mixed_item _
                                eq_refl eq_refl)))).
Defined.

(** In every canonical request that normalization produces, a message has a
    tool-call id exactly when its role is tool, that id is never empty, and no
    message carries tool calls. *)
Theorem tool_call_id_marks_tool_messages :
  forall (request : ResponsesApiRequest) (m : Message),
    In m (messages (translateResponsesToChat request)) ->
    (role m = ToolRole <-> tool_call_id m <> None)
    /\ tool_call_id m <> Some ""
    /\ tool_calls m = None.
Proof.
  intros request m Hin. rewrite messages_of_request in Hin.
  assert (Hplain : role m <> ToolRole /\ tool_call_id m = None /\ tool_calls m = None ->
                   (role m = ToolRole <-> tool_call_id m <> None)
                   /\ tool_call_id m <> Some "" /\ tool_calls m = None).
  { intros (Hr & Hid & Hc). rewrite Hid. repeat split; congruence. }
  apply in_app_or in Hin. destruct Hin as [Hin | Hin].
  - unfold instructions_messages in Hin.
    destruct (req_instructions request) as [[| c i] |]; cbn in Hin; try contradiction.
    destruct Hin as [<- | []]. apply Hplain. cbn. repeat split. discriminate.
  - destruct (req_input request) as [s | items].
    + destruct Hin as [<- | []]. apply Hplain. cbn. repeat split. discriminate.
    + unfold surviving in Hin. apply in_flat_map in Hin.
      destruct Hin as [item [_ Hm]].
      destruct (translateInputItem item) as [m' |] eqn:Ht; [| contradiction].
      destruct Hm as [<- | []].
      destruct (translateInputItem_cases item m' Ht)
        as [(_ & Hr & (id & Hne & Hid & _) & Hc) | (_ & Hr & Hid & Hc & _)].
      * rewrite Hid. repeat split; congruence.
      * apply Hplain. repeat split; auto.
        rewrite Hr. destruct (item_role item); discriminate.
Qed.

Lemma tool_call_id_marks_tool_messages_witness :
  In {| role := ToolRole; content := MString "Weather is sunny";
        tool_call_id := Some "call_123"; tool_calls := None |}
     (messages (translateResponsesToChat
                  (request_of None (InputItems [hello_item; weather_result]))))
  /\ Some "call_123" <> Some "".
Proof.
  assert (Hin : In {| role := ToolRole; content := MString "Weather is sunny";
                      tool_call_id := Some "call_123"; tool_calls := None |}
                  (messages (translateResponsesToChat
                               (request_of None (InputItems [hello_item; weather_result])))))
    by (right; left; reflexivity).
  split; [exact Hin |].
  exact (proj1 (proj2 (tool_call_id_marks_tool_messages _ _ Hin))).
Defined.

Lemma translateTools_select (tools : list ResponsesTool) :
  flat_map
    (fun tool =>
       match tool_type tool, tool_function tool with
       | ToolFunction, Some f =>
           [ {| fn_name := rtf_name f;
                fn_description := rtf_description f;
                fn_parameters := match rtf_parameters f with Some p => p | None => [] end |} ]
       | _, _ => []
       end)
    tools
  = map canonical_tool (flat_map function_of tools).
Proof.
  induction tools as [| tool rest IH]; [reflexivity |].
  cbn [flat_map]. rewrite map_app, IH. f_equal.
  unfold function_of. destruct (tool_type tool), (tool_function tool); reflexivity.
Qed.

Lemma function_of_length (tools : list ResponsesTool) :
  (length (flat_map function_of tools) <= length tools)%nat.
Proof.
  induction tools as [| tool rest IH]; cbn [flat_map length]; [lia |].
  rewrite length_app. unfold function_of at 1.
  destruct (tool_type tool), (tool_function tool); cbn [length]; lia.
Qed.

(** The canonical tools are the function blocks of the tools of type function
    that have one, in order, with absent parameters replaced by the empty
    object; tools of other kinds and function tools without a function block
    are left out, and when nothing remains the canonical tools are unset, never
    an empty sequence. *)
Theorem only_function_tools_are_kept :
  forall (tools : list ResponsesTool),
    translateTools (Some tools)
      = match flat_map function_of tools with
        | [] => None
        | _ :: _ => Some (map canonical_tool (flat_map function_of tools))
        end
    /\ translateTools (Some tools) <> Some []
    /\ translateTools None = None
    /\ (length (match translateTools (Some tools) with Some l => l | None => [] end)
        <= length tools)%nat.
Proof.
  intros tools.
  assert (H : translateTools (Some tools)
              = match flat_map function_of tools with
                | [] => None
                | _ :: _ => Some (map canonical_tool (flat_map function_of tools))
                end).
  { destruct tools as [| tool rest]; [reflexivity |].
    unfold translateTools. rewrite translateTools_select.
    destruct (flat_map function_of (tool :: rest)); reflexivity. }
  rewrite H. repeat split.
  - destruct (flat_map function_of tools); discriminate.
  - pose proof (function_of_length tools) as Hl.
    destruct (flat_map function_of tools) eqn:E; cbn [length]; [lia |].
    rewrite length_map. exact Hl.
Qed.

End NormalizerCoverage.

(** * Further properties of the response projector *)

Section ProjectorCoverage.
Import Types Chat Translation Vocabulary TranslationVocabulary.

Lemma translateChoice_items (response_id : string) (choice : Choice)
    (output : list ResponsesOutputItem) (text : string) :
  translateChoice response_id (output, text) choice
  = ((output ++ choice_items response_id choice)%list,
     if Js.truthy (choice_text choice) then choice_text choice else text).
Proof.
  unfold translateChoice, choice_items, choice_text, message_item.
  destruct (content (message choice)) as [s | parts |];
    cbn [content_truthy extractTextContent].
  - destruct (Js.truthy s); destruct (tool_calls (message choice));
      cbn; rewrite <- ?app_assoc, ?app_nil_r; reflexivity.
  - destruct (Js.truthy (Js.join "" _)); destruct (tool_calls (message choice));
      cbn; rewrite <- ?app_assoc, ?app_nil_r; reflexivity.
  - destruct (tool_calls (message choice)); cbn; rewrite ?app_nil_r; reflexivity.
Qed.

Lemma last_cons {A} (l : list A) :
  forall x d, last (x :: l) d = last l x.
Proof.
  induction l as [| y l IH]; intros x d; [reflexivity |].
  change (last (x :: y :: l) d) with (last (y :: l) d).
  now rewrite !IH.
Qed.

Lemma fold_choices (response_id : string) (choices : list Choice) :
  forall output text,
    fold_left (translateChoice response_id) choices (output, text)
    = ((output ++ flat_map (choice_items response_id) choices)%list,
       last (texts_of_choices choices) text).
Proof.
  induction choices as [| choice rest IH]; intros output text.
  - cbn. now rewrite app_nil_r.
  - cbn [fold_left flat_map]. rewrite translateChoice_items, IH, <- app_assoc.
    f_equal. unfold texts_of_choices. cbn [map filter].
    destruct (Js.truthy (choice_text choice)); [| reflexivity].
    symmetry. apply last_cons.
Qed.

Lemma projected_output (response : ChatCompletionResponse) (model : string) :
  resp_output (translateChatToResponses response model)
    = flat_map (choice_items (id response)) (choices response)
  /\ resp_output_text (translateChatToResponses response model)
     = last (texts_of_choices (choices response)) "".
Proof.
  unfold translateChatToResponses. rewrite fold_choices. split; reflexivity.
Qed.

(** The output items of a projected response are those of its choices in
    order, each choice giving its message item, when it has text, before one
    function-call item per tool call; the function-call items carry the name,
    the arguments unchanged and the call id of the tool calls, in order, and
    the message items carry the non-empty texts. *)
Theorem output_items_follow_choices :
  forall (response : ChatCompletionResponse) (model : string),
    let output := resp_output (translateChatToResponses response model) in
    output = flat_map (choice_items (id response)) (choices response)
    /\ filter is_function_call_item output
       = map function_call_item (calls_of_choices (choices response))
    /\ filter is_message_item output
       = map (message_item (id response)) (texts_of_choices (choices response)).
Proof.
  intros response model output. subst output.
  rewrite (proj1 (projected_output response model)).
  split; [reflexivity |].
  generalize (id response) as rid. intros rid.
  induction (choices response) as [| choice rest [IH1 IH2]]; [split; reflexivity |].
  cbn [flat_map calls_of_choices]. fold (calls_of_choices rest).
  rewrite !filter_app, IH1, IH2, map_app.
  unfold texts_of_choices. cbn [map filter]. fold (texts_of_choices rest).
  unfold choice_items. rewrite !filter_app.
  assert (Hfc : forall l, filter is_function_call_item (map function_call_item l)
                          = map function_call_item l).
  { induction l as [| c l IHl]; cbn; [reflexivity | now f_equal]. }
  assert (Hmsg : forall l, filter is_message_item (map function_call_item l) = []).
  { induction l as [| c l IHl]; cbn; [reflexivity | exact IHl]. }
  rewrite Hfc, Hmsg.
  destruct (Js.truthy (choice_text choice)); cbn; rewrite ?app_nil_r; split; reflexivity.
Qed.

(** The flattened output text of a projected response is the text of the last
    choice that has non-empty text, and the empty string when no choice has
    any. *)
Theorem output_text_is_last_nonempty_text :
  forall (response : ChatCompletionResponse) (model : string),
    resp_output_text (translateChatToResponses response model)
    = last (texts_of_choices (choices response)) "".
Proof.
  intros response model. apply projected_output.
Qed.

(** The projected response keeps the id and the creation time of the
    canonical one and is completed; its model is the canonical model when that
    is not empty and the fallback otherwise, so it is not empty when the
    fallback is not. *)
Theorem projected_model_is_never_empty :
  forall (response : ChatCompletionResponse) (model : string),
    model <> "" ->
    resp_model (translateChatToResponses response model) <> ""
    /\ resp_model (translateChatToResponses response model)
       = (if String.eqb (response_model response) "" then model
          else response_model response)
    /\ resp_id (translateChatToResponses response model) = id response
    /\ resp_created_at (translateChatToResponses response model) = created response
    /\ resp_status (translateChatToResponses response model) = Completed.
Proof.
  intros response model Hne.
  unfold translateChatToResponses.
  destruct (fold_left _ _ _) as [output text]. cbn.
  destruct (response_model response) as [| c s]; cbn; repeat split; auto.
  discriminate.
Qed.

Lemma projected_model_is_never_empty_witness :
  "fallback-model" <> ""
  /\ resp_model (translateChatToResponses unnamed_model_response "fallback-model")
     = "fallback-model".
Proof.
  assert (Hne : "fallback-model" <> "") by discriminate.
  split; [exact Hne |].
  exact (proj1 (proj2 (projected_model_is_never_empty unnamed_model_response
                         "fallback-model" Hne))).
Defined.

End ProjectorCoverage.

(** * Further properties of the streaming event sequencer *)

Section SequencerCoverage.
Import Types Chat Translation Handler StreamVocabulary StreamSamples TraceVocabulary.
Local Open Scope async_scope.

(** ** Traces *)

Lemma traces_nil index : traces index [] [].
Proof. unfold traces. cbn. repeat split; auto. Qed.

Lemma traces_app index cs1 cs2 e1 e2 :
  traces index cs1 e1 -> traces index cs2 e2 -> traces index (cs1 ++ cs2) (e1 ++ e2).
Proof.
  intros (A1 & B1 & C1 & D1 & E1) (A2 & B2 & C2 & D2 & E2).
  unfold traces.
  repeat rewrite ?filter_app, ?flat_map_app, ?map_app, ?length_app.
  rewrite A1, A2, B1, B2, C1, C2.
  repeat split; auto.
  - apply Forall_app. auto.
  - lia.
Qed.

Lemma append_eq_empty (s t : string) : s ++ t = "" -> s = "" /\ t = "".
Proof. destruct s; cbn; [auto | discriminate]. Qed.

Lemma reaches_refl w : reaches [] (responseId (w_state w)) w w.
Proof.
  exists []. cbn [flat_map String.concat]. rewrite app_nil_r, with_text_same.
  split; [reflexivity |]. split; [apply traces_nil |]. split; reflexivity.
Qed.

Lemma reaches_trans cs1 cs2 id1 id2 a b c :
  reaches cs1 id1 a b -> reaches cs2 id2 b c -> reaches (cs1 ++ cs2) id2 a c.
Proof.
  intros (e1 & Hs1 & Ht1 & Hw1 & Hd1) (e2 & Hs2 & Ht2 & Hw2 & Hd2).
  rewrite Hw1 in Ht2, Hw2. cbn [with_text outputIndex outputText] in Ht2, Hw2.
  exists (e1 ++ e2)%list. split; [| split; [| split]].
  - now rewrite Hs2, Hs1, app_assoc.
  - now apply traces_app.
  - rewrite Hw2, flat_map_app, concat_empty_app, append_assoc. reflexivity.
  - intros He. rewrite filter_app.
    rewrite Hw2 in He, Hd2. cbn [with_text outputText] in He, Hd2.
    rewrite (Hd2 He), app_nil_r. apply Hd1.
    rewrite Hw1. cbn [with_text outputText].
    apply append_eq_empty in He. tauto.
Qed.

(** ** What the events of a choice are *)

Lemma filter_map_kind (kind : SSEMessage -> bool) {A} (f : A -> SSEMessage) (b : bool) l :
  (forall x, kind (f x) = b) ->
  filter kind (map f l) = if b then map f l else [].
Proof.
  intros H. induction l as [| x l IH]; cbn [map filter].
  - now destruct b.
  - rewrite H, IH. now destruct b.
Qed.

Lemma fragment_argument_events outputIndex toolCalls :
  filter is_args_delta (flat_map (fragment_events outputIndex) toolCalls)
  = map (fun args => message_of (argsDeltaEvent args outputIndex))
      (flat_map call_arguments toolCalls).
Proof.
  induction toolCalls as [| toolCall rest IH]; [reflexivity |].
  cbn [flat_map]. rewrite filter_app, map_app, IH. f_equal.
  unfold fragment_events, call_arguments.
  destruct (Js.truthy_opt (function_name toolCall)),
           (function_arguments toolCall) as [[| c args] |]; reflexivity.
Qed.

Lemma fragment_events_never_close outputIndex toolCalls :
  filter is_text_done (flat_map (fragment_events outputIndex) toolCalls) = [].
Proof.
  induction toolCalls as [| toolCall rest IH]; [reflexivity |].
  cbn [flat_map]. rewrite filter_app, IH. unfold fragment_events.
  destruct (Js.truthy_opt (function_name toolCall)),
           (function_arguments toolCall) as [[| c args] |]; reflexivity.
Qed.

Lemma fragment_events_are_middle outputIndex toolCalls :
  Forall (middle_event outputIndex) (flat_map (fragment_events outputIndex) toolCalls).
Proof.
  induction toolCalls as [| toolCall rest IH]; [constructor |].
  cbn [flat_map]. apply Forall_app. split; [| exact IH].
  unfold fragment_events.
  destruct (Js.truthy_opt (function_name toolCall)),
           (function_arguments toolCall) as [[| c args] |];
    repeat constructor.
Qed.

Lemma processChoice_throws choice w :
  cc_delta choice = None -> processChoice choice w = (Thrown TypeError, w).
Proof. intros H. unfold processChoice. rewrite H. reflexivity. Qed.

Lemma processChoice_exact choice delta w :
  cc_delta choice = Some delta ->
  let state := w_state w in
  let index := outputIndex state in
  let text := outputText state ++ String.concat "" (delta_texts choice) in
  processChoice choice w =
    (Normal tt,
     {| w_stream :=
          (w_stream w
           ++ map (fun s => message_of (deltaEvent s index)) (delta_texts choice)
           ++ flat_map (fragment_events index) (delta_calls choice)
           ++ (if finished choice && Js.truthy text
               then [message_of (textDoneEvent index)] else []))%list;
        w_state := with_text state text (responseId state) |}).
Proof.
  intros Hd state index text. subst state index text.
  unfold processChoice, delta_texts, delta_calls, finished. rewrite Hd.
  destruct choice as [i d reason]. cbn [cc_delta cc_finish_reason] in *.
  destruct delta as [content toolCalls].
  cbn [deref delta_content delta_tool_calls].
  unfold bind, ret, get_state, set_state, sendTextDeltaEvent, sendTextDoneEvent, writeSSE.
  destruct content as [[| c content] |]; destruct toolCalls as [toolCalls |];
    repeat (cbn [delta_content delta_tool_calls Js.truthy w_state w_stream
                   outputIndex outputText flat_map map String.concat]
            || rewrite processToolCalls_run).
  all: rewrite ?append_empty_r.
  all: destruct (Js.truthy_opt reason && Js.truthy _).
  all: cbn; rewrite ?with_text_id, <- ?app_assoc, ?app_nil_r;
    try reflexivity; try (destruct w; reflexivity).
Qed.

Lemma processChoice_reaches choice delta w :
  cc_delta choice = Some delta ->
  reaches [choice] (responseId (w_state w)) w (snd (processChoice choice w)).
Proof.
  intros Hd. rewrite (processChoice_exact choice delta w Hd). cbn [snd].
  set (index := outputIndex (w_state w)).
  set (text := outputText (w_state w) ++ String.concat "" (delta_texts choice)).
  eexists. split; [reflexivity |].
  cbn [w_state w_stream].
  assert (Hclose : forall kind,
             kind (message_of (textDoneEvent index)) = false ->
             filter kind (if finished choice && Js.truthy text
                          then [message_of (textDoneEvent index)] else []) = []).
  { intros kind Hk. destruct (finished choice && Js.truthy text); cbn; now rewrite ?Hk. }
  destruct (fragment_events_kinds index (delta_calls choice)) as (_ & _ & Hf).
  split; [| split].
  - unfold traces. cbn [flat_map filter]. rewrite !app_nil_r, !filter_app.
    rewrite !(filter_map_kind is_text_delta _ true), !(filter_map_kind is_call_start _ false),
      !(filter_map_kind is_args_delta _ false), !(filter_map_kind is_text_done _ false)
      by reflexivity.
    rewrite Hf, fragment_starts, fragment_argument_events, fragment_events_never_close.
    rewrite !Hclose by reflexivity.
    cbn [app]. rewrite !app_nil_r.
    split; [reflexivity |]. split; [reflexivity |]. split; [reflexivity |]. split.
    + apply Forall_app. split.
      * apply Forall_forall. intros m Hm. apply in_map_iff in Hm.
        destruct Hm as [s [<- _]]. repeat split.
      * apply Forall_app. split; [apply fragment_events_are_middle |].
        destruct (finished choice && Js.truthy text); repeat constructor.
    + destruct (finished choice); cbn; [| lia].
      destruct (Js.truthy text); cbn; lia.
  - cbn [flat_map]. now rewrite app_nil_r.
  - cbn [with_text outputText]. intros He. fold text. rewrite He.
    rewrite !filter_app, (filter_map_kind is_text_done _ false) by reflexivity.
    rewrite fragment_events_never_close. cbn [Js.truthy]. rewrite andb_false_r. reflexivity.
Qed.

Lemma choices_reach choices :
  forall w,
    reaches (processed choices) (responseId (w_state w)) w
      (snd (for_of choices processChoice w)).
Proof.
  induction choices as [| choice rest IH]; intros w; cbn [for_of processed].
  - apply reaches_refl.
  - unfold bind. destruct (cc_delta choice) as [delta |] eqn:Hd.
    + pose proof (processChoice_reaches choice delta w Hd) as H1.
      rewrite (processChoice_exact choice delta w Hd) in *. cbn [snd] in *.
      eapply (reaches_trans [choice] (processed rest)); [exact H1 |].
      match goal with |- reaches _ _ ?w1 _ =>
        replace (responseId (w_state w)) with (responseId (w_state w1)) by reflexivity
      end.
      apply IH.
    + rewrite (processChoice_throws choice w Hd). cbn [snd]. apply reaches_refl.
Qed.

Lemma reaches_after_adopting cs id w w' :
  reaches cs id
    {| w_stream := w_stream w;
       w_state := with_text (w_state w) (outputText (w_state w)) id |} w' ->
  reaches cs id w w'.
Proof.
  intros (evs & Hs & Ht & Hw & Hd). exists evs.
  split; [exact Hs |]. split; [exact Ht |]. split; [exact Hw | exact Hd].
Qed.

Lemma record_reaches rawEvent w :
  reaches (record_choices rawEvent)
    (adopt (record_id rawEvent) (responseId (w_state w))) w
    (snd (processStreamChunk rawEvent w)).
Proof.
  destruct rawEvent as [[| [id choices]]];
    unfold processStreamChunk, try_catch, record_choices, record_id, adopt;
    cbn [data JSON_parse chunk_id chunk_choices].
  - cbn. apply reaches_refl.
  - unfold bind at 1. cbn [ret chunk_id chunk_choices].
    assert (Hloop : forall w0,
               reaches (match choices with Some l => processed l | None => [] end)
                 (responseId (w_state w0)) w0
                 (snd (match (choices0 <- deref choices;; for_of choices0 processChoice) w0
                       with
                       | (Normal a, w') => (Normal a, w')
                       | (Thrown e, w') => ret tt w'
                       end))).
    { intros w0. unfold bind. destruct choices as [choices |]; cbn.
      - pose proof (choices_reach choices w0) as H.
        destruct (for_of choices processChoice w0) as [[[] | e] w']; exact H.
      - apply reaches_refl. }
    destruct id as [[| c id] |]; cbn [Js.truthy Js.truthy_opt Js.template];
      unfold bind at 1; cbn [ret get_state set_state bind]; try apply Hloop.
    unfold bind at 1. cbn [set_state].
    apply reaches_after_adopting. apply Hloop.
Qed.

Lemma stream_reaches response :
  forall w,
    fst (for_of response processStreamChunk w) = Normal tt
    /\ reaches (stream_choices response)
         (final_id response (responseId (w_state w))) w
         (snd (for_of response processStreamChunk w)).
Proof.
  induction response as [| rawEvent rest IH]; intros w.
  - cbn. split; [reflexivity | apply reaches_refl].
  - cbn [for_of stream_choices flat_map final_id fold_left]. unfold bind.
    pose proof (processStreamChunk_normal rawEvent w) as Hn.
    pose proof (record_reaches rawEvent w) as H1.
    destruct (processStreamChunk rawEvent w) as [[[] | e] w1]; cbn in Hn, H1;
      [| discriminate].
    destruct (IH w1) as [Hn2 H2]. split; [exact Hn2 |].
    assert (Hid : responseId (w_state w1)
                  = adopt (record_id rawEvent) (responseId (w_state w))).
    { destruct H1 as (evs & _ & _ & Hw & _). now rewrite Hw. }
    rewrite Hid in H2.
    eapply reaches_trans; [exact H1 | exact H2].
Qed.

(** The whole stream: the created event, the events of the processed choices,
    the done event. *)
Lemma streamCallback_trace model t0 t1 t2 response :
  let state0 := createStreamState t0 model in
  let final :=
    with_text state0 (String.concat "" (stream_texts response))
      (final_id response (responseId state0)) in
  exists middle,
    streamCallback model t0 t1 t2 response =
      (Normal tt,
       {| w_stream :=
            (message_of (createdEvent state0 t1) :: middle
             ++ [message_of (doneEvent final t2)])%list;
          w_state := final |})
    /\ traces 0 (stream_choices response) middle
    /\ (stream_texts response = [] -> filter is_text_done middle = []).
Proof.
  intros state0 final. unfold streamCallback.
  set (w1 := {| w_stream := [message_of (createdEvent state0 t1)]; w_state := state0 |}).
  change ((sendCreatedEvent t1;; for_of response processStreamChunk;; sendDoneEvent t2)
            {| w_stream := []; w_state := createStreamState t0 model |})
    with (let (c, w') := for_of response processStreamChunk w1 in
          match c with
          | Normal _ => sendDoneEvent t2 w'
          | Thrown e => (Thrown e, w')
          end).
  destruct (stream_reaches response w1) as [Hn (middle & Hs & Ht & Hw & Hd)].
  destruct (for_of response processStreamChunk w1) as [[[] | e] [events state]];
    cbn in Hn, Hs, Hw, Hd; [| discriminate].
  exists middle. subst events state. split; [| split].
  - reflexivity.
  - exact Ht.
  - intros He. apply Hd. unfold stream_texts in He. now rewrite He.
Qed.

Lemma events_of_trace model t0 t1 t2 response :
  let state0 := createStreamState t0 model in
  let final :=
    with_text state0 (String.concat "" (stream_texts response))
      (final_id response (responseId state0)) in
  exists middle,
    events_of model t0 t1 t2 response
      = (message_of (createdEvent state0 t1) :: middle
         ++ [message_of (doneEvent final t2)])%list
    /\ traces 0 (stream_choices response) middle
    /\ (stream_texts response = [] -> filter is_text_done middle = []).
Proof.
  intros state0 final.
  destruct (streamCallback_trace model t0 t1 t2 response) as (middle & Hrun & Ht & Hd).
  exists middle. unfold events_of. rewrite Hrun. auto.
Qed.

Lemma last_of_stream (first : SSEMessage) middle final d :
  last (first :: middle ++ [final]) d = final.
Proof.
  change (first :: middle ++ [final])%list with ((first :: middle) ++ [final])%list.
  apply last_last.
Qed.

Lemma filter_stream kind (first : SSEMessage) middle final :
  kind first = false -> kind final = false ->
  filter kind (first :: middle ++ [final]) = filter kind middle.
Proof.
  intros H1 H2. cbn [filter]. rewrite H1, filter_app. cbn [filter].
  rewrite H2. apply app_nil_r.
Qed.

Lemma deltas_of_text_events index (texts : list string) :
  flat_map (fun m => match ev_delta (sse_data m) with Some d => [d] | None => [] end)
    (map (fun s => message_of (deltaEvent s index)) texts)
  = texts.
Proof. induction texts as [| t texts IH]; cbn; [reflexivity | now f_equal]. Qed.

Lemma traces_of_nothing index evs : traces index [] evs -> evs = [].
Proof.
  intros (A & B & C & D & E). cbn in A, B, C, E.
  destruct evs as [| m rest]; [reflexivity |].
  inversion D as [| ? ? Hm _]; subst. destruct Hm as (_ & _ & _ & Hk).
  cbn [filter] in A, B, C, E.
  destruct (is_text_delta m); [discriminate |].
  destruct (is_call_start m); [discriminate |].
  destruct (is_args_delta m); [discriminate |].
  destruct (is_text_done m); [cbn in E; lia | discriminate].
Qed.

Lemma deltas_of_argument_events index (increments : list string) :
  flat_map (fun m => match ev_delta (sse_data m) with Some d => [d] | None => [] end)
    (map (fun args => message_of (argsDeltaEvent args index)) increments)
  = increments.
Proof. induction increments as [| t l IH]; cbn; [reflexivity | now f_equal]. Qed.

(** What the events carry, read off their fields. *)
Lemma traces_payloads index cs evs :
  traces index cs evs ->
  deltas is_text_delta evs = flat_map delta_texts cs
  /\ deltas is_args_delta evs = flat_map call_arguments (flat_map delta_calls cs)
  /\ map (fun m => ev_item (sse_data m)) (filter is_call_start evs)
     = map (fun toolCall => Some (start_item toolCall))
         (filter named (flat_map delta_calls cs))
  /\ map (fun m => ev_output_index (sse_data m)) (filter is_call_start evs)
     = map (fun _ => Some index) (filter named (flat_map delta_calls cs)).
Proof.
  intros (Ht & Hs & Ha & _). unfold deltas. rewrite Ht, Hs, Ha.
  rewrite deltas_of_text_events, deltas_of_argument_events, !map_map.
  split; [reflexivity |]. split; [reflexivity |]. split; reflexivity.
Qed.

Lemma final_id_app before after placeholder :
  final_id (before ++ after) placeholder = final_id after (final_id before placeholder).
Proof. unfold final_id. apply fold_left_app. Qed.

Lemma final_id_without_ids response placeholder :
  Forall (fun r => Js.truthy_opt (record_id r) = false) response ->
  final_id response placeholder = placeholder.
Proof.
  induction 1 as [| r rest Hr _ IH]; [reflexivity |].
  cbn [final_id fold_left]. unfold adopt at 2. rewrite Hr. exact IH.
Qed.

(** ** The properties *)

(** The text that the terminal done event reports is the concatenation of the
    increments of all the text-delta events of the stream, whatever the
    records were. *)
Theorem done_reports_the_text_deltas :
  forall (model : string) (t0 t1 t2 : Z) (response : list RawEvent),
    terminal_text (events_of model t0 t1 t2 response)
    = Some (String.concat "" (deltas is_text_delta (events_of model t0 t1 t2 response))).
Proof.
  intros model t0 t1 t2 response.
  destruct (events_of_trace model t0 t1 t2 response) as (middle & -> & (Ht & _) & _).
  unfold terminal_text, deltas. rewrite last_of_stream.
  rewrite filter_stream by reflexivity.
  rewrite Ht, deltas_of_text_events. reflexivity.
Qed.

(** Every non-empty text content of a processed choice gives exactly one
    text-delta event, which carries that increment itself and not the
    accumulated text, in source order and in output slot 0; the done event
    reports their concatenation. *)
Theorem text_deltas_follow_choices :
  forall (model : string) (t0 t1 t2 : Z) (response : list RawEvent),
    filter is_text_delta (events_of model t0 t1 t2 response)
      = map (fun s => message_of (deltaEvent s 0)) (stream_texts response)
    /\ deltas is_text_delta (events_of model t0 t1 t2 response) = stream_texts response
    /\ map slot_of (filter is_text_delta (events_of model t0 t1 t2 response))
       = map (fun _ => (Some 0, Some 0)) (stream_texts response)
    /\ terminal_text (events_of model t0 t1 t2 response)
       = Some (String.concat "" (stream_texts response)).
Proof.
  intros model t0 t1 t2 response.
  destruct (events_of_trace model t0 t1 t2 response) as (middle & -> & Htr & _).
  destruct (traces_payloads _ _ _ Htr) as (Hd & _).
  destruct Htr as (Ht & _).
  unfold deltas in *. rewrite !filter_stream by reflexivity.
  split; [exact Ht |]. split; [exact Hd |]. split.
  - rewrite Ht, map_map. reflexivity.
  - unfold terminal_text. now rewrite last_of_stream.
Qed.

(** The done event bears the id of the last record that carries a non-empty
    id, also when that record is malformed otherwise. *)
Theorem last_nonempty_id_wins :
  forall (model : string) (t0 t1 t2 : Z) (before after : list RawEvent)
         (rawEvent : RawEvent) (id : string),
    record_id rawEvent = Some id ->
    id <> "" ->
    Forall (fun r => Js.truthy_opt (record_id r) = false) after ->
    terminal_id (events_of model t0 t1 t2 (before ++ rawEvent :: after)) = Some id.
Proof.
  intros model t0 t1 t2 before after rawEvent id Hid Hne Hafter.
  destruct (events_of_trace model t0 t1 t2 (before ++ rawEvent :: after))
    as (middle & -> & _).
  unfold terminal_id. rewrite last_of_stream.
  cbn [message_of sse_data doneEvent ev_response pr_id with_text responseId].
  rewrite final_id_app. cbn [final_id fold_left].
  fold (final_id after (adopt (record_id rawEvent)
                          (final_id before (responseId (createStreamState t0 model))))).
  rewrite (final_id_without_ids _ _ Hafter).
  unfold adopt. rewrite Hid. cbn [Js.truthy_opt Js.template].
  apply truthy_nonempty in Hne. now rewrite Hne.
Qed.

Lemma last_nonempty_id_wins_witness :
  record_id truncated_record = Some "chatcmpl-123"
  /\ "chatcmpl-123" <> ""
  /\ Forall (fun r => Js.truthy_opt (record_id r) = false) [done_sentinel]
  /\ terminal_id
       (events_of "gpt-5.2" 1700000000123 1700000000456 1700000000999
          ([fragment_chunk weather_call] ++ truncated_record :: [done_sentinel]))
     = Some "chatcmpl-123".
Proof.
  assert (Hne : "chatcmpl-123" <> "") by discriminate.
  assert (Hafter : Forall (fun r => Js.truthy_opt (record_id r) = false) [done_sentinel])
    by (repeat constructor).
  split; [reflexivity |]. split; [exact Hne |]. split; [exact Hafter |].
  exact (last_nonempty_id_wins "gpt-5.2" 1700000000123 1700000000456 1700000000999
           [fragment_chunk weather_call] [done_sentinel] truncated_record "chatcmpl-123"
           eq_refl Hne Hafter).
Defined.

(** When no record carries a non-empty id, the done event bears the locally
    generated placeholder, the id that the created event, the first event of
    the stream, always carries. *)
Theorem placeholder_id_without_chunk_ids :
  forall (model : string) (t0 t1 t2 : Z) (response : list RawEvent),
    Forall (fun r => Js.truthy_opt (record_id r) = false) response ->
    terminal_id (events_of model t0 t1 t2 response)
      = Some ("resp_" ++ Js.number_to_string t0)
    /\ hd_error (events_of model t0 t1 t2 response)
       = Some (message_of (createdEvent (createStreamState t0 model) t1))
    /\ option_map sse_event (hd_error (events_of model t0 t1 t2 response))
       = Some "response.created"
    /\ option_map pr_id (first_response (events_of model t0 t1 t2 response))
       = Some (Some ("resp_" ++ Js.number_to_string t0)).
Proof.
  intros model t0 t1 t2 response Hnone.
  destruct (events_of_trace model t0 t1 t2 response) as (middle & -> & _).
  split; [| repeat split].
  unfold terminal_id. rewrite last_of_stream.
  cbn [message_of sse_data doneEvent ev_response pr_id with_text responseId].
  now rewrite (final_id_without_ids _ _ Hnone).
Qed.

Lemma placeholder_id_without_chunk_ids_witness :
  Forall (fun r => Js.truthy_opt (record_id r) = false)
    [text_chunk None "Hello" None; done_sentinel]
  /\ terminal_id
       (events_of "gpt-5.2" 1700000000123 1700000000456 1700000000999
          [text_chunk None "Hello" None; done_sentinel])
     = Some "resp_1700000000123".
Proof.
  assert (Hnone : Forall (fun r => Js.truthy_opt (record_id r) = false)
                    [text_chunk None "Hello" None; done_sentinel])
    by (repeat constructor).
  split; [exact Hnone |].
  exact (proj1 (placeholder_id_without_chunk_ids "gpt-5.2" 1700000000123 1700000000456
                  1700000000999 [text_chunk None "Hello" None; done_sentinel] Hnone)).
Defined.

(** Across a whole stream, the function-call start events are those of the
    fragments of the processed choices that carry a non-empty function name,
    each reporting an item with the id [fc_<call id>], the name and the call
    id of its fragment, and the argument-delta events carry the non-empty
    argument increments of those fragments, both in source order and in
    output slot 0. *)
Theorem tool_events_follow_choices :
  forall (model : string) (t0 t1 t2 : Z) (response : list RawEvent),
    filter is_call_start (events_of model t0 t1 t2 response)
      = map (fun toolCall => message_of (funcStartEvent toolCall 0))
          (filter named (stream_calls response))
    /\ filter is_args_delta (events_of model t0 t1 t2 response)
       = map (fun args => message_of (argsDeltaEvent args 0))
           (flat_map call_arguments (stream_calls response))
    /\ deltas is_args_delta (events_of model t0 t1 t2 response)
       = flat_map call_arguments (stream_calls response)
    /\ map (fun m => ev_item (sse_data m))
         (filter is_call_start (events_of model t0 t1 t2 response))
       = map (fun toolCall => Some (start_item toolCall))
           (filter named (stream_calls response))
    /\ map (fun m => ev_output_index (sse_data m))
         (filter is_call_start (events_of model t0 t1 t2 response))
       = map (fun _ => Some 0) (filter named (stream_calls response))
    /\ map (fun m => ev_output_index (sse_data m))
         (filter is_args_delta (events_of model t0 t1 t2 response))
       = map (fun _ => Some 0) (flat_map call_arguments (stream_calls response)).
Proof.
  intros model t0 t1 t2 response.
  destruct (events_of_trace model t0 t1 t2 response) as (middle & -> & Htr & _).
  destruct (traces_payloads _ _ _ Htr) as (_ & Hd & Hi & Ho).
  destruct Htr as (_ & Hs & Ha & _).
  unfold deltas in *. rewrite !filter_stream by reflexivity.
  split; [exact Hs |]. split; [exact Ha |]. split; [exact Hd |].
  split; [exact Hi |]. split; [exact Ho |].
  rewrite Ha, map_map. reflexivity.
Qed.

(** Every stream consists of the created event, then events of the four
    incremental kinds only, each named after its type, in output slot 0 and
    without a response object, then the done event; the created event
    reports the requested model and an in-progress response without output,
    the done event the requested model and a completed response. *)
Theorem stream_is_created_middle_done :
  forall (model : string) (t0 t1 t2 : Z) (response : list RawEvent),
    exists middle final,
      events_of model t0 t1 t2 response
        = (message_of (createdEvent (createStreamState t0 model) t1) :: middle
           ++ [message_of (doneEvent final t2)])%list
      /\ Forall (middle_event 0) middle
      /\ state_model final = model
      /\ map sse_event (events_of model t0 t1 t2 response)
         = ("response.created" :: map sse_event middle ++ ["response.done"])%list
      /\ first_response (events_of model t0 t1 t2 response)
         = Some {| pr_id := Some ("resp_" ++ Js.number_to_string t0);
                   pr_object := Some "response";
                   pr_created_at := Some (t1 / 1000);
                   pr_model := Some model;
                   pr_output := Some [];
                   pr_output_text := None;
                   pr_usage := None;
                   pr_status := Some InProgress |}
      /\ last_response (events_of model t0 t1 t2 response)
         = Some {| pr_id := Some (responseId final);
                   pr_object := Some "response";
                   pr_created_at := Some (t2 / 1000);
                   pr_model := Some model;
                   pr_output := None;
                   pr_output_text := Some (outputText final);
                   pr_usage := None;
                   pr_status := Some Completed |}.
Proof.
  intros model t0 t1 t2 response.
  destruct (events_of_trace model t0 t1 t2 response)
    as (middle & -> & (_ & _ & _ & Hm & _) & _).
  eexists middle, _. split; [reflexivity |]. split; [exact Hm |].
  split; [reflexivity |]. split.
  - cbn [map]. now rewrite map_app.
  - split; [reflexivity |]. unfold last_response. rewrite last_of_stream. reflexivity.
Qed.

(** A stream whose records give no choice to process (data that does not
    parse, no choices, an empty choice list, a first choice without delta)
    consists of the created and the done event only, the latter reporting the
    empty text. *)
Theorem records_without_choices_emit_nothing :
  forall (model : string) (t0 t1 t2 : Z) (response : list RawEvent),
    stream_choices response = [] ->
    events_of model t0 t1 t2 response
    = [ message_of (createdEvent (createStreamState t0 model) t1);
        message_of
          (doneEvent
             (with_text (createStreamState t0 model) ""
                (final_id response (responseId (createStreamState t0 model))))
             t2) ]
    /\ map sse_event (events_of model t0 t1 t2 response)
       = [ "response.created"; "response.done" ]
    /\ terminal_text (events_of model t0 t1 t2 response) = Some ""
    /\ last_response (events_of model t0 t1 t2 response)
       = Some {| pr_id := Some (final_id response ("resp_" ++ Js.number_to_string t0));
                 pr_object := Some "response";
                 pr_created_at := Some (t2 / 1000);
                 pr_model := Some model;
                 pr_output := None;
                 pr_output_text := Some "";
                 pr_usage := None;
                 pr_status := Some Completed |}.
Proof.
  intros model t0 t1 t2 response He.
  destruct (events_of_trace model t0 t1 t2 response) as (middle & -> & Ht & _).
  unfold stream_texts. rewrite He in *. apply traces_of_nothing in Ht. subst middle.
  repeat split.
Qed.

Lemma records_without_choices_emit_nothing_witness :
  stream_choices [done_sentinel; done_sentinel] = []
  /\ map sse_event
       (events_of "gpt-5.2" 1700000000123 1700000000456 1700000000999
          [done_sentinel; done_sentinel])
     = [ "response.created"; "response.done" ].
Proof.
  split; [reflexivity |].
  exact (proj1 (proj2 (records_without_choices_emit_nothing "gpt-5.2" 1700000000123
                         1700000000456 1700000000999 [done_sentinel; done_sentinel]
                         eq_refl))).
Defined.

(** When no processed choice carries non-empty text, the stream has neither
    text-delta nor text-done events, whatever finish reasons arrive, and the
    done event reports the empty text. *)
Theorem no_text_no_text_events :
  forall (model : string) (t0 t1 t2 : Z) (response : list RawEvent),
    stream_texts response = [] ->
    filter is_text_delta (events_of model t0 t1 t2 response) = []
    /\ filter is_text_done (events_of model t0 t1 t2 response) = []
    /\ terminal_text (events_of model t0 t1 t2 response) = Some "".
Proof.
  intros model t0 t1 t2 response He.
  destruct (events_of_trace model t0 t1 t2 response) as (middle & -> & (Ht & _) & Hd).
  rewrite !filter_stream by reflexivity.
  unfold terminal_text. rewrite last_of_stream, Ht, (Hd He).
  unfold stream_texts in *. rewrite He. repeat split.
Qed.

Lemma no_text_no_text_events_witness :
  stream_texts [stop_chunk; done_sentinel] = []
  /\ filter is_text_done
       (events_of "gpt-5.2" 1700000000123 1700000000456 1700000000999
          [stop_chunk; done_sentinel])
     = [].
Proof.
  split; [reflexivity |].
  exact (proj1 (proj2 (no_text_no_text_events "gpt-5.2" 1700000000123 1700000000456
                         1700000000999 [stop_chunk; done_sentinel] eq_refl))).
Defined.

(** A stream has at most as many text-done events as it has processed choices
    with a finish reason. *)
Theorem text_done_needs_finish_reason :
  forall (model : string) (t0 t1 t2 : Z) (response : list RawEvent),
    (length (filter is_text_done (events_of model t0 t1 t2 response))
     <= length (filter finished (stream_choices response)))%nat.
Proof.
  intros model t0 t1 t2 response.
  destruct (events_of_trace model t0 t1 t2 response)
    as (middle & -> & (_ & _ & _ & _ & Hn) & _).
  rewrite filter_stream by reflexivity. exact Hn.
Qed.

(** When the backend answers the translated request with a live sequence,
    the handler answers with an event stream: the created event, which
    reports the placeholder id, the requested model and an in-progress
    response, then incremental events, then the done event last, which
    reports the requested model, the concatenation of the text increments and
    a completed response. *)
Theorem handler_streams_created_to_done :
  forall (createChatCompletions : ChatCompletionsPayload -> BackendResponse)
         (Date_now : nat -> Z) (request : ResponsesApiRequest)
         (response : list RawEvent),
    createChatCompletions (translateResponsesToChat request) = Streaming response ->
    exists events middle final,
      handleResponses createChatCompletions Date_now request = EventStream events
      /\ events
         = (message_of
              (createdEvent (createStreamState (Date_now 0%nat) (req_model request))
                 (Date_now 1%nat))
            :: middle ++ [message_of (doneEvent final (Date_now 2%nat))])%list
      /\ Forall (middle_event 0) middle
      /\ state_model final = req_model request
      /\ outputText final = String.concat "" (stream_texts response)
      /\ map sse_event events
         = ("response.created" :: map sse_event middle ++ ["response.done"])%list
      /\ first_response events
         = Some {| pr_id := Some ("resp_" ++ Js.number_to_string (Date_now 0%nat));
                   pr_object := Some "response";
                   pr_created_at := Some (Date_now 1%nat / 1000);
                   pr_model := Some (req_model request);
                   pr_output := Some [];
                   pr_output_text := None;
                   pr_usage := None;
                   pr_status := Some InProgress |}
      /\ last_response events
         = Some {| pr_id :=
                     Some (final_id response
                             ("resp_" ++ Js.number_to_string (Date_now 0%nat)));
                   pr_object := Some "response";
                   pr_created_at := Some (Date_now 2%nat / 1000);
                   pr_model := Some (req_model request);
                   pr_output := None;
                   pr_output_text := Some (String.concat "" (stream_texts response));
                   pr_usage := None;
                   pr_status := Some Completed |}.
Proof.
  intros createChatCompletions Date_now request response Hb.
  unfold handleResponses. rewrite Hb.
  destruct (streamCallback_trace (req_model request) (Date_now 0%nat) (Date_now 1%nat)
              (Date_now 2%nat) response)
    as (middle & -> & (_ & _ & _ & Hm & _) & _).
  eexists _, middle, _. split; [reflexivity |]. cbn [snd w_stream].
  split; [reflexivity |]. split; [exact Hm |]. split; [reflexivity |].
  split; [reflexivity |]. split.
  - cbn [map]. now rewrite map_app.
  - split; [reflexivity |]. unfold last_response. rewrite last_of_stream. reflexivity.
Qed.

Lemma handler_streams_created_to_done_witness :
  streaming_backend
    (translateResponsesToChat
       (TranslationVocabulary.request_of None (InputString "Hello")))
    = Streaming [hello_chunk; stop_chunk; done_sentinel]
  /\ exists events middle final,
       handleResponses streaming_backend sample_clock
         (TranslationVocabulary.request_of None (InputString "Hello"))
       = EventStream events
       /\ events
          = (message_of
               (createdEvent (createStreamState (sample_clock 0%nat) "gpt-5.2")
                  (sample_clock 1%nat))
             :: middle ++ [message_of (doneEvent final (sample_clock 2%nat))])%list
       /\ Forall (middle_event 0) middle
       /\ state_model final = "gpt-5.2"
       /\ outputText final = "Hello"
       /\ map sse_event events
          = ("response.created" :: map sse_event middle ++ ["response.done"])%list
       /\ first_response events
          = Some {| pr_id := Some "resp_1700000000123";
                    pr_object := Some "response";
                    pr_created_at := Some 1700000000;
                    pr_model := Some "gpt-5.2";
                    pr_output := Some [];
                    pr_output_text := None;
                    pr_usage := None;
                    pr_status := Some InProgress |}
       /\ last_response events
          = Some {| pr_id := Some "chatcmpl-123";
                    pr_object := Some "response";
                    pr_created_at := Some 1700000000;
                    pr_model := Some "gpt-5.2";
                    pr_output := None;
                    pr_output_text := Some "Hello";
                    pr_usage := None;
                    pr_status := Some Completed |}.
Proof.
  split; [reflexivity |].
  exact (handler_streams_created_to_done streaming_backend sample_clock
           (TranslationVocabulary.request_of None (InputString "Hello"))
           [hello_chunk; stop_chunk; done_sentinel] eq_refl).
Defined.

(** When the backend answers the translated request with a complete response,
    the handler answers with its projection, whose model falls back to the
    model of the request: it is not empty when the request names a model. *)
Theorem handler_projects_complete_response :
  forall (createChatCompletions : ChatCompletionsPayload -> BackendResponse)
         (Date_now : nat -> Z) (request : ResponsesApiRequest)
         (response : ChatCompletionResponse),
    createChatCompletions (translateResponsesToChat request) = NonStreaming response ->
    req_model request <> "" ->
    exists body,
      handleResponses createChatCompletions Date_now request = JsonBody body
      /\ body = translateChatToResponses response (req_model request)
      /\ resp_model body <> ""
      /\ resp_status body = Completed.
Proof.
  intros createChatCompletions Date_now request response Hb Hne.
  unfold handleResponses. rewrite Hb.
  eexists. split; [reflexivity |]. split; [reflexivity |].
  unfold translateChatToResponses.
  destruct (fold_left _ _ _) as [output text]. cbn.
  split; [| reflexivity].
  destruct (response_model response) as [| c s]; cbn; [exact Hne | discriminate].
Qed.

Lemma handler_projects_complete_response_witness :
  "gpt-5.2" <> ""
  /\ exists body,
       handleResponses complete_backend sample_clock
         (TranslationVocabulary.request_of None (InputString "Hello"))
       = JsonBody body
       /\ body = translateChatToResponses TranslationVocabulary.unnamed_model_response
                   "gpt-5.2"
       /\ resp_model body <> ""
       /\ resp_status body = Completed.
Proof.
  assert (Hne : "gpt-5.2" <> "") by discriminate.
  split; [exact Hne |].
  exact (handler_projects_complete_response complete_backend sample_clock
           (TranslationVocabulary.request_of None (InputString "Hello"))
           TranslationVocabulary.unnamed_model_response eq_refl Hne).
Defined.

End SequencerCoverage.

(** * Malformed records *)

Section MalformedRecords.
Import Types Chat Translation Handler StreamVocabulary StreamSamples TraceVocabulary.
Local Open Scope async_scope.

(** C4, amended. A record whose data does not parse is discarded: it emits no
    event and leaves the state as it was, and the stream goes on as if the
    record had not been there.  A record that parses but lacks its choices
    or the delta of a choice is given up at that point: the id it carried is
    adopted, the events of the choices before the faulty one are emitted
    (their text increments, function-call starts and argument increments, and
    nothing of the choices from the faulty one on) and their text is
    accumulated, so that the accumulated text remains the concatenation of
    the text deltas emitted.  No record makes the processing throw: the
    records after it are processed from the state reached, and the stream
    ends with the terminal done event. *)
Theorem malformed_record_never_stops_the_stream :
  forall (rawEvent : RawEvent) (w : World) (before after : list RawEvent)
         (model : string) (t0 t1 t2 : Z),
    processStreamChunk {| data := Unparseable |} w = (Normal tt, w)
    /\ streamCallback model t0 t1 t2 (before ++ {| data := Unparseable |} :: after)
       = streamCallback model t0 t1 t2 (before ++ after)
    /\ fst (processStreamChunk rawEvent w) = Normal tt
    /\ advances w (snd (processStreamChunk rawEvent w))
    /\ for_of (rawEvent :: after) processStreamChunk w
       = for_of after processStreamChunk (snd (processStreamChunk rawEvent w))
    /\ fst (streamCallback model t0 t1 t2 (before ++ rawEvent :: after)) = Normal tt
    /\ terminal_done_last
         (w_stream (snd (streamCallback model t0 t1 t2 (before ++ rawEvent :: after))))
    /\ reaches (record_choices rawEvent)
         (adopt (record_id rawEvent) (responseId (w_state w))) w
         (snd (processStreamChunk rawEvent w))
    /\ (exists evs,
          w_stream (snd (processStreamChunk rawEvent w)) = (w_stream w ++ evs)%list
          /\ deltas is_text_delta evs = flat_map delta_texts (record_choices rawEvent)
          /\ deltas is_args_delta evs
             = flat_map call_arguments (flat_map delta_calls (record_choices rawEvent))
          /\ map (fun m => ev_item (sse_data m)) (filter is_call_start evs)
             = map (fun toolCall => Some (start_item toolCall))
                 (filter named (flat_map delta_calls (record_choices rawEvent)))
          /\ Forall (middle_event (outputIndex (w_state w))) evs
          /\ (length (filter is_text_done evs)
              <= length (filter finished (record_choices rawEvent)))%nat)
    /\ w_state (snd (processStreamChunk rawEvent w))
       = {| outputText :=
              outputText (w_state w)
              ++ String.concat "" (flat_map delta_texts (record_choices rawEvent));
            responseId :=
              match record_id rawEvent with
              | Some (String c id) => String c id
              | _ => responseId (w_state w)
              end;
            state_model := state_model (w_state w);
            outputIndex := outputIndex (w_state w) |}.
Proof.
  intros rawEvent w before after model t0 t1 t2.
  assert (Hskip : forall w0, processStreamChunk {| data := Unparseable |} w0 = (Normal tt, w0))
    by reflexivity.
  split; [apply Hskip |]. split.
  { unfold streamCallback, bind.
    destruct (sendCreatedEvent t1 _) as [[[] | e] w1]; [| reflexivity].
    now rewrite (for_of_skip processStreamChunk _ Hskip). }
  split; [apply processStreamChunk_normal |].
  split; [apply processStreamChunk_advances |].
  split.
  { cbn [for_of]. unfold bind.
    pose proof (processStreamChunk_normal rawEvent w) as Hn.
    destruct (processStreamChunk rawEvent w) as [[[] | e] w']; cbn in Hn;
      [reflexivity | discriminate]. }
  split; [| split].
  { destruct (streamCallback_shape model t0 t1 t2 (before ++ rawEvent :: after))
      as (events & state & -> & _). reflexivity. }
  { destruct (streamCallback_shape model t0 t1 t2 (before ++ rawEvent :: after))
      as (events & state & -> & _ & Hnone & _).
    cbn [snd w_stream]. exists events, (message_of (doneEvent state t2)). auto. }
  pose proof (record_reaches rawEvent w) as Hreach.
  split; [exact Hreach |].
  destruct Hreach as (evs & Hs & Htr & Hw & _).
  destruct (traces_payloads _ _ _ Htr) as (Hd & Ha & Hi & _).
  split.
  - exists evs. split; [exact Hs |]. split; [exact Hd |]. split; [exact Ha |].
    split; [exact Hi |]. destruct Htr as (_ & _ & _ & Hm & Hn). split; [exact Hm | exact Hn].
  - rewrite Hw. unfold with_text, adopt.
    destruct (record_id rawEvent) as [[| c id] |]; reflexivity.
Qed.

End MalformedRecords.
